(** * store-api: the catalog query service over a document store

    A shallow embedding of [index.js]: the four Express route handlers
    ([/products], [/product/:productId], [/products/search],
    [/products/filter]) and the maintenance routine
    [updateProductsWithKeywords], together with a model of the part of the
    Firestore client they call ([query], [where], [orderBy], [limit],
    [startAfter], [getDocs], [getDoc], [updateDoc]). *)

From Stdlib Require Import ZArith QArith Ascii String List Bool Lia.
From Stdlib Require Import OrderedTypeEx.
From stdpp Require Import base option list sorting strings gmap.

Local Open Scope string_scope.
Local Open Scope Z_scope.

(** ** JavaScript built-ins used by the handlers *)

Module JS.

(** A JavaScript number as far as the handlers look at it: they only parse
    and compare numbers, so a finite double is represented by the rational
    it denotes (rounding to 53 bits is not modelled). *)
Inductive Num : Type :=
  | NaN
  | NegInf
  | Fin (q : Q)
  | PosInf.

(** ASCII white space (the Unicode spaces beyond U+007F are left out). *)
Definition is_space (c : ascii) : bool :=
  let n := N_of_ascii c in
  (n =? 32)%N || ((9 <=? n)%N && (n <=? 13)%N).

Fixpoint skip_space (s : string) : string :=
  match s with
  | String c s' => if is_space c then skip_space s' else s
  | EmptyString => EmptyString
  end.

(** Value of [c] as a digit in the given radix, if it is one. *)
Definition digit_of (radix : N) (c : ascii) : option N :=
  let n := N_of_ascii c in
  let v := if (48 <=? n)%N && (n <=? 57)%N then Some (n - 48)%N
           else if (97 <=? n)%N && (n <=? 122)%N then Some (n - 87)%N
           else if (65 <=? n)%N && (n <=? 90)%N then Some (n - 55)%N
           else None in
  match v with
  | Some d => if (d <? radix)%N then Some d else None
  | None => None
  end.

(** The longest prefix of digits of [s], most significant first, and what
    follows it. *)
Fixpoint read_digits (radix : N) (s : string) : list N * string :=
  match s with
  | String c s' =>
      match digit_of radix c with
      | Some d => let '(ds, rest) := read_digits radix s' in (d :: ds, rest)
      | None => ([], s)
      end
  | EmptyString => ([], EmptyString)
  end.

Definition digits_value (radix : N) (ds : list N) : N :=
  fold_left (fun acc d => (acc * radix + d)%N) ds 0%N.

(** An optional sign: [true] for a minus. *)
Definition read_sign (s : string) : bool * string :=
  match s with
  | String "-" s' => (true, s')
  | String "+" s' => (false, s')
  | _ => (false, s)
  end.

(** [parseInt(s)] with no radix argument; [None] is NaN. *)
Definition parseInt (s : string) : option Z :=
  let '(neg, s1) := read_sign (skip_space s) in
  let '(radix, s2) :=
    match s1 with
    | String "0" (String "x" r) | String "0" (String "X" r) => (16%N, r)
    | _ => (10%N, s1)
    end in
  match read_digits radix s2 with
  | ([], _) => None
  | (ds, _) =>
      let v := Z.of_N (digits_value radix ds) in
      Some (if neg then - v else v)
  end.

(** The exponent part of a decimal literal: [e], an optional sign and at
    least one digit; anything else is not part of the number. *)
Definition read_exponent (s : string) : Z :=
  match s with
  | String "e" r | String "E" r =>
      let '(neg, r1) := read_sign r in
      match read_digits 10 r1 with
      | ([], _) => 0
      | (ds, _) =>
          let v := Z.of_N (digits_value 10 ds) in
          if neg then - v else v
      end
  | _ => 0
  end.

Definition pow10 (e : Z) : Q :=
  if (0 <=? e)%Z then inject_Z (10 ^ e) else / inject_Z (10 ^ (- e)).

(** [parseFloat(s)]: the longest prefix that is a decimal literal. *)
Definition parseFloat (s : string) : Num :=
  let '(neg, s1) := read_sign (skip_space s) in
  if String.prefix "Infinity" s1 then (if neg then NegInf else PosInf)
  else
    let '(ip, s2) := read_digits 10 s1 in
    let '(fp, s3) :=
      match s2 with
      | String "." r => read_digits 10 r
      | _ => ([], s2)
      end in
    match ip, fp with
    | [], [] => NaN
    | _, _ =>
        let mant := (inject_Z (Z.of_N (digits_value 10 (ip ++ fp)))
                     * pow10 (- Z.of_nat (length fp)))%Q in
        let v := (mant * pow10 (read_exponent s3))%Q in
        Fin (Qred (if neg then - v else v))
    end.

(** [s.toLowerCase()] on the ASCII letters; other characters are kept. *)
Definition lower_ascii (c : ascii) : ascii :=
  let n := N_of_ascii c in
  if (65 <=? n)%N && (n <=? 90)%N then ascii_of_N (n + 32) else c.

Fixpoint toLowerCase (s : string) : string :=
  match s with
  | String c s' => String (lower_ascii c) (toLowerCase s')
  | EmptyString => EmptyString
  end.

(** [s.split(sep)] for a one-character separator: every occurrence of the
    separator ends a piece, so two separators in a row, or one at either
    end, give an empty piece. *)
Fixpoint split (sep : ascii) (s : string) : list string :=
  match s with
  | EmptyString => [EmptyString]
  | String c s' =>
      if Ascii.eqb c sep then EmptyString :: split sep s'
      else match split sep s' with
           | w :: ws => String c w :: ws
           | [] => [String c EmptyString]
           end
  end.

(** Truthiness of a query-string parameter: absent and empty are falsy. *)
Definition truthy (p : option string) : bool :=
  match p with
  | Some (String _ _) => true
  | _ => false
  end.

End JS.

(** ** The document store

    The store is an external collaborator, reached through the Firestore
    client library.  This module models what that library documents of the
    calls the handlers make: the order of field values, what the filters
    ['=='], ['>='], ['<='] and ['array-contains'] select, that an ordered
    query leaves out the documents lacking the ordered field and breaks
    ties by document identifier, where a [startAfter] cursor resumes, and
    where [limit] cuts. *)

Module Firestore.

Import JS.

(** A field value.  Arrays hold primitive values (the store does not nest
    arrays); maps, timestamps, references and the like are not used by the
    handlers and are left out. *)
Inductive Prim : Type :=
  | PNull
  | PBool (b : bool)
  | PNum (n : Num)
  | PStr (s : string).

Inductive Value : Type :=
  | VPrim (p : Prim)
  | VArr (l : list Prim).

Definition VStr (s : string) : Value := VPrim (PStr s).
Definition VNum (n : Num) : Value := VPrim (PNum n).

(** The stored fields of a document, a JavaScript object. *)
Abbreviation Data := (gmap string Value).

(** What [getDocs] and [getDoc] hand back for one document: [doc.id] and
    [doc.data()]. *)
Record DocumentSnapshot : Type := mkSnap {
  snap_id : string;
  snap_data : Data
}.

(** Lexicographic combination of two comparisons. *)
Definition lex (c1 c2 : comparison) : comparison :=
  match c1 with
  | Eq => c2
  | _ => c1
  end.

Definition num_rank (n : Num) : nat :=
  match n with
  | NaN => 0
  | NegInf => 1
  | Fin _ => 2
  | PosInf => 3
  end.

(** Numbers: NaN first, then from minus infinity up. *)
Definition num_compare (a b : Num) : comparison :=
  match a, b with
  | Fin x, Fin y => Qcompare x y
  | _, _ => Nat.compare (num_rank a) (num_rank b)
  end.

Definition prim_rank (p : Prim) : nat :=
  match p with
  | PNull => 0
  | PBool _ => 1
  | PNum _ => 2
  | PStr _ => 3
  end.

(** Values of different types are ordered by type: null, booleans,
    numbers, strings (then arrays). *)
Definition prim_compare (a b : Prim) : comparison :=
  match a, b with
  | PBool x, PBool y => Bool.compare x y
  | PNum x, PNum y => num_compare x y
  | PStr x, PStr y => String.compare x y
  | _, _ => Nat.compare (prim_rank a) (prim_rank b)
  end.

(** Arrays compare element by element, a proper prefix first. *)
Fixpoint prims_compare (l1 l2 : list Prim) : comparison :=
  match l1, l2 with
  | [], [] => Eq
  | [], _ :: _ => Lt
  | _ :: _, [] => Gt
  | x :: l1', y :: l2' => lex (prim_compare x y) (prims_compare l1' l2')
  end.

Definition value_compare (a b : Value) : comparison :=
  match a, b with
  | VPrim x, VPrim y => prim_compare x y
  | VPrim _, VArr _ => Lt
  | VArr _, VPrim _ => Gt
  | VArr x, VArr y => prims_compare x y
  end.

(** A missing field, where it is compared at all, comes before any value. *)
Definition field_compare (a b : option Value) : comparison :=
  match a, b with
  | None, None => Eq
  | None, Some _ => Lt
  | Some _, None => Gt
  | Some x, Some y => value_compare x y
  end.

Definition prim_eqb (a b : Prim) : bool :=
  match prim_compare a b with
  | Eq => true
  | _ => false
  end.

Definition value_eqb (a b : Value) : bool :=
  match value_compare a b with
  | Eq => true
  | _ => false
  end.

(** The type bracket of a value: range filters only match values of the
    type of their bound. *)
Definition value_kind (v : Value) : nat :=
  match v with
  | VPrim p => prim_rank p
  | VArr _ => 4
  end.

(** ** Queries *)

Inductive WhereOp : Type :=
  | OpEq               (* '==' *)
  | OpGe               (* '>=' *)
  | OpLe               (* '<=' *)
  | OpArrayContains.   (* 'array-contains' *)

Inductive Direction : Type :=
  | Asc
  | Desc.

(** What [where], [orderBy], [limit] and [startAfter] return.  [orderBy]
    keeps the direction string it was given. *)
Inductive QueryConstraint : Type :=
  | Where (field : string) (op : WhereOp) (v : Value)
  | OrderBy (field : string) (direction : string)
  | Limit (n : Z)
  | StartAfter (cursor : DocumentSnapshot).

(** A query over the products collection: the constraints put on it, in
    the order the calls of [query] added them. *)
Abbreviation Query := (list QueryConstraint).

(** [Products], the collection reference of [firebase.js], as a query. *)
Definition Products : Query := [].

Definition query (q : Query) (cs : list QueryConstraint) : Query := (q ++ cs)%list.

Definition parse_direction (s : string) : option Direction :=
  if String.eqb s "asc" then Some Asc
  else if String.eqb s "desc" then Some Desc
  else None.

Definition is_range (op : WhereOp) : bool :=
  match op with
  | OpGe | OpLe => true
  | _ => false
  end.

(** Whether a field value passes [where(field, op, bound)]. *)
Definition where_holds (op : WhereOp) (bound : Value) (fv : option Value) : bool :=
  match fv with
  | None => false
  | Some v =>
      match op with
      | OpEq => value_eqb v bound
      | OpGe => Nat.eqb (value_kind v) (value_kind bound)
                && negb (match value_compare v bound with Lt => true | _ => false end)
      | OpLe => Nat.eqb (value_kind v) (value_kind bound)
                && negb (match value_compare v bound with Gt => true | _ => false end)
      | OpArrayContains =>
          match v, bound with
          | VArr l, VPrim p => existsb (prim_eqb p) l
          | _, _ => false
          end
      end
  end.

Definition matches (c : QueryConstraint) (d : Data) : bool :=
  match c with
  | Where f op bound => where_holds op bound (d !! f)
  | _ => true
  end.

(** The explicit orderings of a query; [None] when a direction is neither
    ["asc"] nor ["desc"]. *)
Fixpoint explicit_keys (q : Query) : option (list (string * Direction)) :=
  match q with
  | [] => Some []
  | OrderBy f s :: q' =>
      match parse_direction s, explicit_keys q' with
      | Some dir, Some ks => Some ((f, dir) :: ks)
      | _, _ => None
      end
  | _ :: q' => explicit_keys q'
  end.

(** The fields under a range filter, each once, in order of appearance. *)
Fixpoint range_fields (q : Query) : list string :=
  match q with
  | [] => []
  | Where f op _ :: q' =>
      if is_range op then f :: filter (fun g => g ≠ f) (range_fields q')
      else range_fields q'
  | _ :: q' => range_fields q'
  end.

Definition last_direction (ks : list (string * Direction)) : Direction :=
  match last ks with
  | Some (_, dir) => dir
  | None => Asc
  end.

(** The ordering a query is run with: its explicit orderings, then the
    range-filtered fields it does not order by, in the direction of the
    last explicit ordering (ascending if there is none).  The document
    identifier breaks the remaining ties, in that same direction. *)
Definition order_keys (q : Query) : option (list (string * Direction)) :=
  match explicit_keys q with
  | Some ks =>
      let implicit := filter (fun f : string => f ∉ ks.*1) (range_fields q) in
      Some (ks ++ map (fun f => (f, last_direction ks)) implicit)%list
  | None => None
  end.

Definition directed (dir : Direction) (c : comparison) : comparison :=
  match dir with
  | Asc => c
  | Desc => CompOpp c
  end.

Fixpoint keys_compare (ks : list (string * Direction)) (a b : Data) : comparison :=
  match ks with
  | [] => Eq
  | (f, dir) :: ks' =>
      lex (directed dir (field_compare (a !! f) (b !! f))) (keys_compare ks' a b)
  end.

(** The order of the result of a query with ordering [ks]. *)
Definition snap_compare (ks : list (string * Direction)) (a b : DocumentSnapshot) : comparison :=
  lex (keys_compare ks (snap_data a) (snap_data b))
      (directed (last_direction ks) (String.compare (snap_id a) (snap_id b))).

Definition snap_le (ks : list (string * Direction)) (a b : DocumentSnapshot) : Prop :=
  snap_compare ks a b ≠ Gt.

#[global] Instance snap_le_dec ks a b : Decision (snap_le ks a b).
Proof. unfold snap_le. destruct (snap_compare ks a b); [left | left | right]; congruence. Defined.

Definition has_fields (ks : list (string * Direction)) (d : Data) : bool :=
  forallb (fun k => bool_decide (is_Some (d !! k.1))) ks.

Fixpoint last_limit (q : Query) : option Z :=
  match q with
  | [] => None
  | Limit n :: q' => match last_limit q' with Some m => Some m | None => Some n end
  | _ :: q' => last_limit q'
  end.

Fixpoint last_cursor (q : Query) : option DocumentSnapshot :=
  match q with
  | [] => None
  | StartAfter c :: q' => match last_cursor q' with Some c' => Some c' | None => Some c end
  | _ :: q' => last_cursor q'
  end.

Definition after_cursor (ks : list (string * Direction)) (c : option DocumentSnapshot)
    (d : DocumentSnapshot) : bool :=
  match c with
  | None => true
  | Some c => match snap_compare ks c d with Lt => true | _ => false end
  end.

(** A range filter cannot take NaN as its bound. *)
Definition bound_ok (c : QueryConstraint) : bool :=
  match c with
  | Where _ op (VPrim (PNum NaN)) => negb (is_range op)
  | _ => true
  end.

Definition limit_ok (q : Query) : bool :=
  match last_limit q with
  | Some n => 0 <? n
  | None => true
  end.

Definition cursor_ok (ks : list (string * Direction)) (q : Query) : bool :=
  match last_cursor q with
  | Some c => has_fields ks (snap_data c)
  | None => true
  end.

Definition cut (n : option Z) (l : list DocumentSnapshot) : list DocumentSnapshot :=
  match n with
  | Some n => take (Z.to_nat n) l
  | None => l
  end.

Definition selected (q : Query) (ks : list (string * Direction)) (d : DocumentSnapshot) : bool :=
  forallb (fun c => matches c (snap_data d)) q
  && has_fields ks (snap_data d)
  && after_cursor ks (last_cursor q) d.

Definition snapshots (db : gmap string Data) : list DocumentSnapshot :=
  map (fun kv => mkSnap kv.1 kv.2) (map_to_list db).

(** The documents a query returns on a collection: those that pass every
    filter, carry every ordered field and lie after the cursor, in the
    order of the query, cut at its limit.  [None] is a query the client
    rejects (a direction that is none, NaN as a range bound, a limit that
    is not positive, a cursor without the ordered fields). *)
Definition run_query (db : gmap string Data) (q : Query) : option (list DocumentSnapshot) :=
  match order_keys q with
  | Some ks =>
      if forallb bound_ok q && limit_ok q && cursor_ok ks q then
        Some (cut (last_limit q)
                (merge_sort (snap_le ks) (List.filter (selected q ks) (snapshots db))))
      else None
  | None => None
  end.

End Firestore.

(** ** The store as the handlers see it *)

Module Api.

Import JS Firestore.

(** A call made to the store client. *)
Inductive StoreCall : Type :=
  | CallGetDocs (q : Query)
  | CallGetDoc (productId : string)
  | CallUpdateDoc (productId : string) (fields : Data).

(** The products collection, the calls the store fails on (network,
    permissions, a missing index: anything that makes the client's promise
    reject), and the calls made so far, oldest first. *)
Record World : Type := mkWorld {
  db : gmap string Data;
  faults : StoreCall -> bool;
  calls : list StoreCall
}.

Definition record_call (c : StoreCall) (w : World) : World :=
  mkWorld (db w) (faults w) (calls w ++ [c])%list.

Definition set_db (d : gmap string Data) (w : World) : World :=
  mkWorld d (faults w) (calls w).

(** How a piece of handler code ends: with a value, or by throwing. *)
Inductive Outcome (A : Type) : Type :=
  | Returned (a : A)
  | Thrown.
Arguments Returned {A} a.
Arguments Thrown {A}.

(** Handler code: it runs in a world, ends in one of the two ways and
    leaves a world. *)
Definition M (A : Type) : Type := World -> Outcome A * World.

Definition ret {A} (a : A) : M A := fun w => (Returned a, w).

Definition throw {A} : M A := fun w => (Thrown, w).

Definition bind {A B} (m : M A) (k : A -> M B) : M B :=
  fun w =>
    match m w with
    | (Returned a, w') => k a w'
    | (Thrown, w') => (Thrown, w')
    end.

(** [try { m } catch (error) { h }] *)
Definition try_catch {A} (m : M A) (h : M A) : M A :=
  fun w =>
    match m w with
    | (Returned a, w') => (Returned a, w')
    | (Thrown, w') => h w'
    end.

Notation "x <- m ;; k" := (bind m (fun x => k))
  (at level 100, m at next level, right associativity).

(** [limit(n)]: the client refuses anything but a positive number. *)
Definition limitDocs (n : option Z) : M QueryConstraint :=
  match n with
  | Some n => if 0 <? n then ret (Limit n) else throw
  | None => throw
  end.

(** [orderBy(field, directionStr = 'asc')] *)
Definition orderBy (field : string) (directionStr : option string) : QueryConstraint :=
  OrderBy field (default "asc" directionStr).

(** [getDocs(q)], the [docs] of the snapshot it resolves to *)
Definition getDocs (q : Query) : M (list DocumentSnapshot) :=
  fun w =>
    let w' := record_call (CallGetDocs q) w in
    if faults w (CallGetDocs q) then (Thrown, w')
    else match run_query (db w) q with
         | Some docs => (Returned docs, w')
         | None => (Thrown, w')
         end.

(** [getDoc(doc(Products, productId))], for an identifier that is one path
    segment; [None] is a snapshot whose [exists()] is false. *)
Definition getDoc (productId : string) : M (option DocumentSnapshot) :=
  fun w =>
    let w' := record_call (CallGetDoc productId) w in
    if faults w (CallGetDoc productId) then (Thrown, w')
    else (Returned (mkSnap productId <$> db w !! productId), w').

(** [updateDoc(doc(Products, productId), fields)]: the given fields are
    written into the stored document, which has to exist; its other fields
    stay. *)
Definition updateDoc (productId : string) (fields : Data) : M unit :=
  fun w =>
    let w' := record_call (CallUpdateDoc productId fields) w in
    if faults w (CallUpdateDoc productId fields) then (Thrown, w')
    else match db w !! productId with
         | Some d => (Returned tt, set_db (<[productId := fields ∪ d]> (db w)) w')
         | None => (Thrown, w')
         end.

(** ** Requests and responses *)

(** The body of a response: a JSON array of objects, or one object. *)
Inductive Body : Type :=
  | JArray (l : list Data)
  | JObject (o : Data).

Record Response : Type := mkResponse {
  status : Z;
  body : Body
}.

(** [res.send(b)] and [res.status(code).send(b)] *)
Definition send (b : Body) : Response := mkResponse 200 b.
Definition status_send (code : Z) (b : Body) : Response := mkResponse code b.

(** [{ error: msg }] *)
Definition error_body (msg : string) : Body := JObject {[ "error" := VStr msg ]}.

(** [{ ...o, ...src }]: the properties of [src] are copied into [o], where
    they replace the properties of the same name. *)
Definition spread (o src : Data) : Data := src ∪ o.

(** [{ id: doc.id, ...doc.data() }] *)
Definition annotate (d : DocumentSnapshot) : Data :=
  spread {[ "id" := VStr (snap_id d) ]} (snap_data d).

(** [req.query] of [/products]; a parameter is a string or absent. *)
Record ProductsQuery : Type := mkProductsQuery {
  category : option string;
  sortBy : option string;
  order : option string;
  limit : option string;
  page : option string
}.

(** [req.query] of [/products/filter] *)
Record FilterQuery : Type := mkFilterQuery {
  minPrice : option string;
  maxPrice : option string;
  brand : option string;
  sort : option string
}.

(** [a > 1] on numbers, false on NaN *)
Definition gt_one (a : option Z) : bool :=
  match a with
  | Some n => 1 <? n
  | None => false
  end.

(** [(a - 1) * b] on numbers *)
Definition pred_times (a b : option Z) : option Z :=
  match a, b with
  | Some x, Some y => Some ((x - 1) * y)
  | _, _ => None
  end.

(** ** The handlers *)

(** The query [/products] builds before it looks at the page. *)
Definition products_base (category : option string) : Query :=
  if truthy category
  then query Products [Where "category" OpEq (VStr (default "" category))]
  else Products.

(** [app.get('/products', ...)] *)
Definition get_products (rq : ProductsQuery) : M Response :=
  try_catch
    (let sortBy := default "price" (sortBy rq) in
     let order := default "asc" (order rq) in
     let limitNum := match limit rq with Some s => parseInt s | None => Some 10 end in
     let pageNum := match page rq with Some s => parseInt s | None => Some 1 end in
     let q := products_base (category rq) in
     lim <- limitDocs limitNum ;;
     let q := query q [orderBy sortBy (Some order); lim] in
     q <- (if gt_one pageNum then
             plim <- limitDocs (pred_times pageNum limitNum) ;;
             let previousPageQuery := query Products [orderBy sortBy (Some order); plim] in
             previousPageSnapshot <- getDocs previousPageQuery ;;
             match last previousPageSnapshot with
             | Some lastVisible => ret (query q [StartAfter lastVisible])
             | None => ret q
             end
           else ret q) ;;
     querySnapshot <- getDocs q ;;
     ret (send (JArray (map annotate querySnapshot))))
    (ret (status_send 500 (error_body "Failed to fetch products"))).

(** [app.get('/product/:productId', ...)] *)
Definition get_product (productId : string) : M Response :=
  try_catch
    (productSnapshot <- getDoc productId ;;
     match productSnapshot with
     | None => ret (status_send 404 (error_body "Product not found"))
     | Some snap => ret (send (JObject (annotate snap)))
     end)
    (ret (status_send 500 (error_body "Failed to fetch product"))).

(** [app.get('/products/search', ...)] *)
Definition get_products_search (q : option string) : M Response :=
  try_catch
    (if negb (truthy q) then
       ret (status_send 400 (error_body "Search term (q) is required"))
     else
       let lowercaseQ := toLowerCase (default "" q) in
       let searchQuery :=
         query Products [Where "searchKeywords" OpArrayContains (VStr lowercaseQ)] in
       querySnapshot <- getDocs searchQuery ;;
       ret (send (JArray (map annotate querySnapshot))))
    (ret (status_send 500 (error_body "Failed to search products"))).

(** [app.get('/products/filter', ...)] *)
Definition get_products_filter (rq : FilterQuery) : M Response :=
  try_catch
    (let minPrice := match minPrice rq with Some s => parseFloat s | None => Fin 0 end in
     let maxPrice := match maxPrice rq with Some s => parseFloat s | None => PosInf end in
     let sort := default "price" (sort rq) in
     let q := query Products [Where "price" OpGe (VNum minPrice);
                              Where "price" OpLe (VNum maxPrice)] in
     let q := if truthy (brand rq)
              then query q [Where "brand" OpEq (VStr (toLowerCase (default "" (brand rq))))]
              else q in
     let q := query q [orderBy sort None] in
     querySnapshot <- getDocs q ;;
     ret (send (JArray (map annotate querySnapshot))))
    (ret (status_send 500 (error_body "Failed to filter products"))).

(** The search keywords of a title: [title.toLowerCase().split(' ')] *)
Definition keywords_of (title : string) : list string :=
  split " " (toLowerCase title).

(** One turn of the [forEach] callback.  It is an async function: when it
    throws (a title that is no string, an update the store fails on) its
    promise is rejected and nobody looks at it. *)
Definition update_keywords (productDoc : DocumentSnapshot) : M unit :=
  try_catch
    (match snap_data productDoc !! "title" with
     | Some (VPrim (PStr title)) =>
         let keywords := keywords_of title in
         updateDoc (snap_id productDoc) {[ "searchKeywords" := VArr (map PStr keywords) ]}
     | _ => throw
     end)
    (ret tt).

Fixpoint for_each {A} (f : A -> M unit) (l : list A) : M unit :=
  match l with
  | [] => ret tt
  | x :: l' => _ <- f x ;; for_each f l'
  end.

(** [updateProductsWithKeywords()] *)
Definition updateProductsWithKeywords : M unit :=
  querySnapshot <- getDocs Products ;;
  for_each update_keywords querySnapshot.

End Api.

Import JS Firestore Api.

(** ** Vocabulary of the properties *)

(** A three-way comparison of a total preorder. *)
Class Cmp {A : Type} (cmp : A -> A -> comparison) : Prop := {
  cmp_antisym : forall x y, cmp y x = CompOpp (cmp x y);
  cmp_eq_l : forall x y z, cmp x y = Eq -> cmp x z = cmp y z;
  cmp_lt_trans : forall x y z, cmp x y = Lt -> cmp y z = Lt -> cmp x z = Lt
}.

(** A store that fails on no call. *)
Definition healthy (w : World) : Prop := forall c, faults w c = false.

(** What [getDocs] answers in a world: nothing if the store fails on the
    call or the client rejects the query. *)
Definition answer (w : World) (q : Query) : option (list DocumentSnapshot) :=
  if faults w (CallGetDocs q) then None else run_query (db w) q.

(** A document as it is stored in a world. *)
Definition stored (w : World) (d : DocumentSnapshot) : Prop :=
  db w !! snap_id d = Some (snap_data d).

(** The response of a handler that sends a list, given what the store
    answered to its last query. *)
Definition reply (msg : string) (o : option (list DocumentSnapshot)) : Outcome Response :=
  Returned (match o with
            | Some docs => send (JArray (map annotate docs))
            | None => status_send 500 (error_body msg)
            end).

(** Records in the order of one field, in a direction. *)
Definition sorted_by (f : string) (dir : Direction) (records : list Data) : Prop :=
  Sorted (fun a b => directed dir (field_compare (a !! f) (b !! f)) <> Gt) records.

(** *** [/products] *)

(** The numbers the handler reads off its request. *)
Definition limitNum (rq : ProductsQuery) : option Z :=
  match limit rq with Some s => parseInt s | None => Some 10 end.

Definition pageNum (rq : ProductsQuery) : option Z :=
  match page rq with Some s => parseInt s | None => Some 1 end.

Definition sort_field (rq : ProductsQuery) : string := default "price" (sortBy rq).

Definition sort_order (rq : ProductsQuery) : string := default "asc" (order rq).

(** The two queries of the handler: the one that finds the cursor, and the
    one whose result is sent, with or without a cursor. *)
Definition previous_page_query (rq : ProductsQuery) (n : Z) : Query :=
  [OrderBy (sort_field rq) (sort_order rq); Limit n].

Definition main_query (rq : ProductsQuery) (n : Z) (cursor : option DocumentSnapshot) : Query :=
  (products_base (category rq) ++ [OrderBy (sort_field rq) (sort_order rq); Limit n]
   ++ match cursor with Some c => [StartAfter c] | None => [] end)%list.

(** The whole listing in the order a request asks for, as a query and as
    the documents it returns: those that carry the ordered field. *)
Definition listing_query (rq : ProductsQuery) : Query :=
  [OrderBy (sort_field rq) (sort_order rq)].

Definition ordered_listing (rq : ProductsQuery) (dir : Direction) (db : gmap string Data)
    : list DocumentSnapshot :=
  merge_sort (snap_le [(sort_field rq, dir)])
    (List.filter (fun d => has_fields [(sort_field rq, dir)] (snap_data d)) (snapshots db)).

(** *** [/products/search] *)

(** The query for a term. *)
Definition search_query (q : string) : Query :=
  [Where "searchKeywords" OpArrayContains (VStr (toLowerCase q))].

(** The keyword array of a document holds the token [t] itself. *)
Definition has_keyword (t : string) (d : Data) : Prop :=
  exists l, d !! "searchKeywords" = Some (VArr l) /\ PStr t ∈ l.

(** *** [/products/filter] *)

(** The bounds, the ordered field and the query of a request. *)
Definition lower_bound (rq : FilterQuery) : Num :=
  match minPrice rq with Some s => parseFloat s | None => Fin 0 end.

Definition upper_bound (rq : FilterQuery) : Num :=
  match maxPrice rq with Some s => parseFloat s | None => PosInf end.

Definition filter_sort (rq : FilterQuery) : string := default "price" (sort rq).

Definition filter_query (rq : FilterQuery) : Query :=
  ([Where "price" OpGe (VNum (lower_bound rq)); Where "price" OpLe (VNum (upper_bound rq))]
   ++ (if truthy (brand rq)
       then [Where "brand" OpEq (VStr (toLowerCase (default "" (brand rq))))]
       else [])
   ++ [OrderBy (filter_sort rq) "asc"])%list.

(** Numbers in the order of the store. *)
Definition num_le (a b : Num) : Prop := num_compare a b <> Gt.

(** A document whose price is a number between two bounds, both included. *)
Definition price_within (lo hi : Num) (d : Data) : Prop :=
  exists p, d !! "price" = Some (VNum p) /\ num_le lo p /\ num_le p hi.

(** The brand a request asks for, if it names one. *)
Definition brand_is (rq : FilterQuery) (d : Data) : Prop :=
  forall b, brand rq = Some b -> b <> "" -> d !! "brand" = Some (VStr (toLowerCase b)).

(** *** [updateProductsWithKeywords] *)

(** The tokens of a string as the specification words them: the maximal
    runs of characters that are not white space. *)
Fixpoint tokens_from (cur : string) (s : string) : list string :=
  match s with
  | EmptyString => match cur with EmptyString => [] | _ => [cur] end
  | String c s' =>
      if is_space c
      then match cur with
           | EmptyString => tokens_from EmptyString s'
           | _ => cur :: tokens_from EmptyString s'
           end
      else tokens_from (cur +:+ String c EmptyString) s'
  end.

Definition whitespace_tokens (s : string) : list string := tokens_from EmptyString s.

(** The stored fields after the keywords of the title were written. *)
Definition with_keywords (d : Data) : Data :=
  match d !! "title" with
  | Some (VPrim (PStr title)) =>
      <[ "searchKeywords" := VArr (map PStr (keywords_of title)) ]> d
  | _ => d
  end.

(** Every stored document is as it was in [db0], or has had its keywords
    written. *)
Definition refreshing (db0 : gmap string Data) (w : World) : Prop :=
  forall i, db w !! i = db0 !! i \/ db w !! i = with_keywords <$> db0 !! i.

(** *** Requests with a parameter spelled out, replaced or removed *)

(** The request with every absent parameter of [/products] given its
    default as the client would write it. *)
Definition explicit_defaults (rq : ProductsQuery) : ProductsQuery :=
  mkProductsQuery (category rq)
    (Some (default "price" (sortBy rq))) (Some (default "asc" (order rq)))
    (Some (default "10" (limit rq))) (Some (default "1" (page rq))).

Definition explicit_filter_defaults (rq : FilterQuery) : FilterQuery :=
  mkFilterQuery (Some (default "0" (minPrice rq))) (Some (default "Infinity" (maxPrice rq)))
    (brand rq) (Some (default "price" (sort rq))).

Definition with_category (c : option string) (rq : ProductsQuery) : ProductsQuery :=
  mkProductsQuery c (sortBy rq) (order rq) (limit rq) (page rq).

Definition with_page (p : option string) (rq : ProductsQuery) : ProductsQuery :=
  mkProductsQuery (category rq) (sortBy rq) (order rq) (limit rq) p.

Definition with_brand (b : option string) (rq : FilterQuery) : FilterQuery :=
  mkFilterQuery (minPrice rq) (maxPrice rq) b (sort rq).

(** *** What a run leaves of the world *)

(** The world [w'] is [w] with the calls [new] added: the collection is as
    it was. *)
Definition new_calls (w w' : World) (new : list StoreCall) : Prop :=
  db w' = db w /\ faults w' = faults w /\ calls w' = (calls w ++ new)%list.

(** The write the maintenance pass calls for on one document: one if its
    title is a string, none otherwise. *)
Definition keyword_update (s : DocumentSnapshot) : list StoreCall :=
  match snap_data s !! "title" with
  | Some (VPrim (PStr title)) =>
      [CallUpdateDoc (snap_id s)
         {[ "searchKeywords" := VArr (map PStr (keywords_of title)) ]}]
  | _ => []
  end.

(** Whether a character occurs in a string. *)
Fixpoint occurs (c : ascii) (s : string) : bool :=
  match s with
  | EmptyString => false
  | String c' s' => Ascii.eqb c' c || occurs c s'
  end.

(** ** Sample catalogues and requests *)

Definition product (title brand category : string) (price : Q) (keywords : list string) : Data :=
  {[ "title" := VStr title; "brand" := VStr brand; "category" := VStr category;
     "price" := VNum (Fin price); "searchKeywords" := VArr (map PStr keywords) ]}.

(** Six products, a to f by price; a and b are hats, the others shoes. *)
Definition catalogue : gmap string Data :=
  {[ "a" := product "Red Hat" "acme" "hats" 5 ["red"; "hat"];
     "b" := product "Blue Hat" "acme" "hats" 20 ["blue"; "hat"];
     "c" := product "Red Boot" "bolt" "shoes" 45 ["red"; "boot"];
     "d" := product "Tall Boot" "bolt" "shoes" 60 ["tall"; "boot"];
     "e" := product "Old Clog" "acme" "shoes" 75 ["old"; "clog"];
     "f" := product "Red Shoe" "acme" "shoes" 90 ["red"; "shoe"] ]}.

Definition shop : World := mkWorld catalogue (fun _ => false) [].

Definition sample (productId : string) : DocumentSnapshot :=
  mkSnap productId (default ∅ (catalogue !! productId)).


(** A product whose stored fields include an [id] of their own. *)
Definition imported : World :=
  mkWorld {[ "p1" := <[ "id" := VStr "7" ]> (product "Red Shoe" "acme" "shoes" 5 []) ]}
          (fun _ => false) [].

(** A title typed with two spaces in a row. *)
Definition typo_shop : World :=
  mkWorld {[ "p1" := {[ "title" := VStr "Red  Shoe" ]} ]} (fun _ => false) [].

(** [/products?category=shoes&limit=2&page=n] *)
Definition shoes_page (n : string) : ProductsQuery :=
  mkProductsQuery (Some "shoes") None None (Some "2") (Some n).

(** [/products?limit=2&page=n] *)
Definition any_page (n : string) : ProductsQuery :=
  mkProductsQuery None None None (Some "2") (Some n).

(** [/products/filter?minPrice=10&maxPrice=50&brand=Acme] *)
Definition acme_10_50 : FilterQuery :=
  mkFilterQuery (Some "10") (Some "50") (Some "Acme") None.


(** [/products?limit=0] *)
Definition limit_zero : ProductsQuery :=
  mkProductsQuery None None None (Some "0") None.

(** [/products/filter?minPrice=50&maxPrice=10] *)
Definition crossed_50_10 : FilterQuery :=
  mkFilterQuery (Some "50") (Some "10") None None.

(** ** The built-ins on examples *)

Example parseInt_examples :
  JS.parseInt "10" = Some 10 /\ JS.parseInt "  -42abc" = Some (-42) /\
  JS.parseInt "0x1F" = Some 31 /\ JS.parseInt "2.5" = Some 2 /\
  JS.parseInt "" = None /\ JS.parseInt "abc" = None.
Proof. repeat split; reflexivity. Qed.

Example parseFloat_examples :
  JS.parseFloat "10" = JS.Fin 10 /\ JS.parseFloat "19.99" = JS.Fin (1999 # 100) /\
  JS.parseFloat "-.5e1" = JS.Fin (-5) /\ JS.parseFloat "Infinity" = JS.PosInf /\
  JS.parseFloat "" = JS.NaN /\ JS.parseFloat "1e-2x" = JS.Fin (1 # 100).
Proof. repeat split; reflexivity. Qed.

Example split_examples :
  JS.split " " "red  shoe" = ["red"; ""; "shoe"] /\
  JS.split " " "" = [""] /\ JS.split " " "a " = ["a"; ""].
Proof. repeat split; reflexivity. Qed.

Example whitespace_tokens_examples :
  whitespace_tokens "red shoe" = JS.split " " "red shoe" /\
  whitespace_tokens "  red   shoe " = ["red"; "shoe"] /\
  whitespace_tokens "" = [].
Proof. repeat split; reflexivity. Qed.

(** ** The order of query results *)

Section Order.

Lemma lex_opp c1 c2 : CompOpp (lex c1 c2) = lex (CompOpp c1) (CompOpp c2).
Proof. by destruct c1. Qed.

Lemma directed_opp dir c : CompOpp (directed dir c) = directed dir (CompOpp c).
Proof. by destruct dir. Qed.

Lemma num_compare_antisym a b : num_compare b a = CompOpp (num_compare a b).
Proof.
  destruct a, b; try reflexivity.
  simpl. symmetry. apply Qcompare_antisym.
Qed.

Lemma prim_compare_antisym a b : prim_compare b a = CompOpp (prim_compare a b).
Proof.
  destruct a as [|x|x|x], b as [|y|y|y]; try reflexivity; simpl.
  - by destruct x, y.
  - apply num_compare_antisym.
  - apply String.compare_antisym.
Qed.

Lemma prims_compare_antisym l1 l2 :
  prims_compare l2 l1 = CompOpp (prims_compare l1 l2).
Proof.
  revert l2. induction l1 as [|x l1 IH]; intros [|y l2]; try reflexivity.
  simpl. by rewrite lex_opp, <- IH, <- prim_compare_antisym.
Qed.

Lemma value_compare_antisym a b : value_compare b a = CompOpp (value_compare a b).
Proof.
  destruct a, b; try reflexivity; simpl.
  - apply prim_compare_antisym.
  - apply prims_compare_antisym.
Qed.

Lemma field_compare_antisym a b : field_compare b a = CompOpp (field_compare a b).
Proof. destruct a, b; try reflexivity. apply value_compare_antisym. Qed.

Lemma keys_compare_antisym ks a b :
  keys_compare ks b a = CompOpp (keys_compare ks a b).
Proof.
  induction ks as [|[f dir] ks IH]; [done|].
  simpl. by rewrite lex_opp, <- IH, directed_opp, <- field_compare_antisym.
Qed.

Lemma snap_compare_antisym ks a b :
  snap_compare ks b a = CompOpp (snap_compare ks a b).
Proof.
  unfold snap_compare.
  by rewrite lex_opp, <- keys_compare_antisym, directed_opp, <- String.compare_antisym.
Qed.

#[global] Instance snap_le_total ks : Total (snap_le ks).
Proof.
  intros a b. unfold snap_le. rewrite (snap_compare_antisym ks a b).
  destruct (snap_compare ks a b); simpl; [left | left | right]; congruence.
Qed.

(** Equality filters on a string select that very string. *)
Lemma prim_eqb_str p s : prim_eqb p (PStr s) = true -> p = PStr s.
Proof.
  unfold prim_eqb. destruct p as [|x|x|x]; simpl; try discriminate.
  destruct (String.compare x s) eqn:E; try discriminate.
  intros _. f_equal. by apply String.compare_eq_iff.
Qed.

Lemma prim_eqb_refl_str s : prim_eqb (PStr s) (PStr s) = true.
Proof.
  unfold prim_eqb. simpl.
  pose proof (String.compare_antisym s s) as H.
  destruct (String.compare s s); simpl in H; congruence.
Qed.

Lemma value_eqb_str v s : value_eqb v (VStr s) = true <-> v = VStr s.
Proof.
  split.
  - unfold value_eqb. destruct v as [p|l]; simpl; [|discriminate].
    intros H. unfold VStr. f_equal. apply prim_eqb_str.
    unfold prim_eqb. by destruct (prim_compare p (PStr s)).
  - intros ->. apply prim_eqb_refl_str.
Qed.


End Order.

(** ** Comparisons that are total orders *)

Section Comparisons.

Lemma cmp_refl `{Cmp A cmp} x : cmp x x = Eq.
Proof. pose proof (cmp_antisym x x) as E. by destruct (cmp x x). Qed.

Lemma cmp_eq_r `{Cmp A cmp} x y z : cmp y z = Eq -> cmp x y = cmp x z.
Proof.
  intros E. rewrite (cmp_antisym y x), (cmp_antisym z x). f_equal.
  apply cmp_eq_l. trivial.
Qed.

Lemma cmp_le_trans `{Cmp A cmp} x y z : cmp x y <> Gt -> cmp y z <> Gt -> cmp x z <> Gt.
Proof.
  intros Hxy Hyz.
  destruct (cmp x y) eqn:E1; [| |done].
  - by rewrite (cmp_eq_l x y z E1).
  - destruct (cmp y z) eqn:E2; [| |done].
    + rewrite <- (cmp_eq_r x y z E2). by rewrite E1.
    + by rewrite (cmp_lt_trans x y z E1 E2).
Qed.

#[global] Instance Cmp_lex {A} (c1 c2 : A -> A -> comparison) :
  Cmp c1 -> Cmp c2 -> Cmp (fun x y => lex (c1 x y) (c2 x y)).
Proof.
  intros H1 H2. split.
  - intros x y. by rewrite lex_opp, <- !cmp_antisym.
  - intros x y z E. destruct (c1 x y) eqn:E1; simpl in E; try done.
    by rewrite (cmp_eq_l (cmp:=c1) x y z E1), (cmp_eq_l (cmp:=c2) x y z E).
  - intros x y z Exy Eyz.
    destruct (c1 x y) eqn:E1; simpl in Exy; try done.
    + rewrite (cmp_eq_l (cmp:=c1) x y z E1).
      destruct (c1 y z) eqn:E2; simpl in *; try done.
      by apply (cmp_lt_trans (cmp:=c2) x y z).
    + destruct (c1 y z) eqn:E2; simpl in Eyz; try done.
      * by rewrite <- (cmp_eq_r (cmp:=c1) x y z E2), E1.
      * by rewrite (cmp_lt_trans (cmp:=c1) x y z E1 E2).
Qed.

#[global] Instance Cmp_opp {A} (c : A -> A -> comparison) :
  Cmp c -> Cmp (fun x y => CompOpp (c x y)).
Proof.
  intros H. split.
  - intros x y. by rewrite <- !cmp_antisym.
  - intros x y z E. f_equal. apply cmp_eq_l. by destruct (c x y).
  - intros x y z Exy Eyz.
    assert (c z y = Lt) as E1 by (rewrite (cmp_antisym y z); by destruct (c y z)).
    assert (c y x = Lt) as E2 by (rewrite (cmp_antisym x y); by destruct (c x y)).
    rewrite (cmp_antisym z x). by rewrite (cmp_lt_trans z y x E1 E2).
Qed.

#[global] Instance Cmp_directed {A} dir (c : A -> A -> comparison) :
  Cmp c -> Cmp (fun x y => directed dir (c x y)).
Proof. intros H. destruct dir; simpl; [by destruct H | by apply Cmp_opp]. Qed.

#[global] Instance Cmp_on {A B} (f : A -> B) (c : B -> B -> comparison) :
  Cmp c -> Cmp (fun x y => c (f x) (f y)).
Proof.
  intros H. split.
  - intros x y. apply cmp_antisym.
  - intros x y z. apply cmp_eq_l.
  - intros x y z. apply cmp_lt_trans.
Qed.

#[global] Instance Cmp_nat : Cmp Nat.compare.
Proof.
  split.
  - intros x y. apply Nat.compare_antisym.
  - intros x y z E. apply Nat.compare_eq in E. by subst.
  - intros x y z. rewrite !Nat.compare_lt_iff. lia.
Qed.

#[global] Instance Cmp_bool : Cmp Bool.compare.
Proof. split; [by intros [] [] | by intros [] [] [] | by intros [] [] []]. Qed.

#[global] Instance Cmp_string : Cmp String.compare.
Proof.
  split.
  - intros x y. apply String.compare_antisym.
  - intros x y z E. apply String.compare_eq_iff in E. by subst.
  - intros x y z E1 E2. apply String_as_OT.cmp_lt.
    eapply String_as_OT.lt_trans; by apply String_as_OT.cmp_lt.
Qed.

#[global] Instance Cmp_Q : Cmp Qcompare.
Proof.
  split.
  - intros x y. symmetry. apply Qcompare_antisym.
  - intros x y z E. apply Qeq_alt in E. by rewrite E.
  - intros x y z E1 E2. apply Qlt_alt. eapply Qlt_trans; by apply Qlt_alt.
Qed.

#[global] Instance Cmp_num : Cmp num_compare.
Proof.
  split.
  - apply num_compare_antisym.
  - intros [| |x|] [| |y|] [| |z|]; simpl; try done. apply cmp_eq_l.
  - intros [| |x|] [| |y|] [| |z|]; simpl; try done. apply cmp_lt_trans.
Qed.

#[global] Instance Cmp_prim : Cmp prim_compare.
Proof.
  split.
  - apply prim_compare_antisym.
  - intros [|x|x|x] [|y|y|y] [|z|z|z]; simpl; try done; apply cmp_eq_l.
  - intros [|x|x|x] [|y|y|y] [|z|z|z]; simpl; try done; apply cmp_lt_trans.
Qed.

#[global] Instance Cmp_prims : Cmp prims_compare.
Proof.
  split.
  - apply prims_compare_antisym.
  - intros x. induction x as [|a x IH]; intros [|b y] [|c z]; simpl; try done.
    intros E. destruct (prim_compare a b) eqn:E1; simpl in E; try done.
    by rewrite (cmp_eq_l a b c E1), (IH y z E).
  - intros x. induction x as [|a x IH]; intros [|b y] [|c z]; simpl; try done.
    intros Exy Eyz.
    destruct (prim_compare a b) eqn:E1; simpl in Exy; try done.
    + rewrite (cmp_eq_l a b c E1).
      destruct (prim_compare b c) eqn:E2; simpl in *; try done. by apply (IH y z).
    + destruct (prim_compare b c) eqn:E2; simpl in Eyz; try done.
      * by rewrite <- (cmp_eq_r a b c E2), E1.
      * by rewrite (cmp_lt_trans a b c E1 E2).
Qed.

#[global] Instance Cmp_value : Cmp value_compare.
Proof.
  split.
  - apply value_compare_antisym.
  - intros [x|x] [y|y] [z|z]; simpl; try done; apply cmp_eq_l.
  - intros [x|x] [y|y] [z|z]; simpl; try done; apply cmp_lt_trans.
Qed.

#[global] Instance Cmp_field : Cmp field_compare.
Proof.
  split.
  - apply field_compare_antisym.
  - intros [x|] [y|] [z|]; simpl; try done; apply cmp_eq_l.
  - intros [x|] [y|] [z|]; simpl; try done; apply cmp_lt_trans.
Qed.

#[global] Instance Cmp_keys ks : Cmp (keys_compare ks).
Proof.
  induction ks as [|[f dir] ks IH]; simpl.
  - by split.
  - apply Cmp_lex; [|done].
    apply (Cmp_directed dir (fun a b : Data => field_compare (a !! f) (b !! f))).
    apply (Cmp_on (fun a : Data => a !! f)), _.
Qed.

#[global] Instance Cmp_snap ks : Cmp (snap_compare ks).
Proof.
  unfold snap_compare. apply Cmp_lex.
  - apply (Cmp_on snap_data), _.
  - apply (Cmp_directed _ (fun a b => String.compare (snap_id a) (snap_id b))).
    apply (Cmp_on snap_id), _.
Qed.

#[global] Instance snap_le_trans ks : Transitive (snap_le ks).
Proof. intros x y z. apply cmp_le_trans. Qed.

(** Two snapshots the order does not tell apart have the same identifier. *)
Lemma snap_compare_Eq_id ks a b : snap_compare ks a b = Eq -> snap_id a = snap_id b.
Proof.
  unfold snap_compare. destruct (keys_compare ks _ _); simpl; try done.
  intros E. apply String.compare_eq_iff.
  destruct (last_direction ks); simpl in E; [done|].
  by destruct (String.compare (snap_id a) (snap_id b)).
Qed.

End Comparisons.

(** ** What a query returns *)

Section RunQuery.

Lemma elem_of_snapshots (db : gmap string Data) d :
  In d (snapshots db) <-> db !! snap_id d = Some (snap_data d).
Proof.
  unfold snapshots. rewrite in_map_iff. split.
  - intros ([k v] & <- & Hin). simpl.
    by apply elem_of_map_to_list, list_elem_of_In.
  - intros H. exists (snap_id d, snap_data d). split; [by destruct d|].
    by apply list_elem_of_In, elem_of_map_to_list.
Qed.

Lemma NoDup_snapshots (db : gmap string Data) :
  NoDup (map snap_id (snapshots db)).
Proof.
  unfold snapshots. rewrite map_map. simpl.
  apply (NoDup_fst_map_to_list db).
Qed.

Lemma NoDup_map_filter {A B} (f : A -> B) (p : A -> bool) l :
  NoDup (map f l) -> NoDup (map f (List.filter p l)).
Proof.
  induction l as [|x l IH]; simpl; [done|].
  rewrite NoDup_cons. intros [Hx Hl]. destruct (p x); simpl; auto.
  apply NoDup_cons. split; auto.
  intros Hin. apply Hx.
  apply list_elem_of_In, in_map_iff in Hin as (y & <- & Hy).
  apply list_elem_of_In, in_map_iff. exists y. split; [done|].
  by apply filter_In in Hy as [? _].
Qed.

Lemma NoDup_map_take {A B} (f : A -> B) n l :
  NoDup (map f l) -> NoDup (map f (take n l)).
Proof.
  revert n. induction l as [|x l IH]; intros [|n]; simpl; try done.
  - intros _. constructor.
  - rewrite !NoDup_cons. intros [Hx Hl]. split; auto.
    intros Hin. apply Hx.
    apply list_elem_of_In, in_map_iff in Hin as (y & <- & Hy).
    apply list_elem_of_In, in_map_iff. exists y. split; [done|].
    apply list_elem_of_In. apply list_elem_of_In in Hy.
    by eapply subseteq_take.
Qed.

Lemma Sorted_take {A} (R : relation A) n l : Sorted R l -> Sorted R (take n l).
Proof.
  revert n. induction l as [|x l IH]; intros [|n] H; simpl; try constructor.
  - apply IH. by inversion H.
  - inversion H as [|? ? _ Hhd]; subst.
    destruct l, n; simpl; constructor. by inversion Hhd.
Qed.

Lemma cut_subseteq n l d : d ∈ cut n l -> d ∈ l.
Proof. destruct n; simpl; [apply subseteq_take | done]. Qed.

Lemma length_cut n l : (length (cut (Some n) l) <= Z.to_nat n)%nat.
Proof. simpl. rewrite length_take. lia. Qed.

Lemma run_query_inv db q docs :
  run_query db q = Some docs ->
  exists ks, order_keys q = Some ks /\ cursor_ok ks q = true /\ limit_ok q = true /\
    forallb bound_ok q = true /\
    docs = cut (last_limit q)
             (merge_sort (snap_le ks) (List.filter (selected q ks) (snapshots db))).
Proof.
  unfold run_query. destruct (order_keys q) as [ks|]; [|done].
  destruct (forallb bound_ok q) eqn:Hb; [|done].
  destruct (limit_ok q) eqn:Hl; [|done].
  destruct (cursor_ok ks q) eqn:Hc; [|done].
  simpl. intros [= <-]. by exists ks.
Qed.

Lemma run_query_sound db q ks docs :
  run_query db q = Some docs -> order_keys q = Some ks ->
  Sorted (snap_le ks) docs /\ NoDup (map snap_id docs) /\
  (forall d, d ∈ docs -> db !! snap_id d = Some (snap_data d) /\ selected q ks d = true) /\
  (forall n, last_limit q = Some n -> (length docs <= Z.to_nat n)%nat).
Proof.
  intros Hrun Hks. apply run_query_inv in Hrun as (ks' & Hks' & _ & _ & _ & ->).
  assert (ks' = ks) as -> by congruence.
  pose proof (merge_sort_Permutation (snap_le ks)
                (List.filter (selected q ks) (snapshots db))) as Hperm.
  split; [|split; [|split]].
  - destruct (last_limit q); simpl; [apply Sorted_take|]; apply Sorted_merge_sort, _.
  - assert (NoDup (map snap_id (merge_sort (snap_le ks)
                (List.filter (selected q ks) (snapshots db))))) as Hnd.
    { rewrite (Permutation_map snap_id Hperm).
      apply NoDup_map_filter, NoDup_snapshots. }
    destruct (last_limit q); simpl; [by apply NoDup_map_take | done].
  - intros d Hd. apply cut_subseteq in Hd. rewrite Hperm in Hd.
    apply list_elem_of_In, filter_In in Hd as [Hin Hsel].
    by apply elem_of_snapshots in Hin.
  - intros n ->. apply length_cut.
Qed.

Lemma run_query_complete db q ks docs d :
  run_query db q = Some docs -> order_keys q = Some ks -> last_limit q = None ->
  db !! snap_id d = Some (snap_data d) -> selected q ks d = true -> d ∈ docs.
Proof.
  intros Hrun Hks Hlim Hd Hsel.
  apply run_query_inv in Hrun as (ks' & Hks' & _ & _ & _ & ->).
  assert (ks' = ks) as -> by congruence.
  rewrite Hlim. simpl. rewrite merge_sort_Permutation.
  apply list_elem_of_In, filter_In. split; [|done]. by apply elem_of_snapshots.
Qed.

End RunQuery.

(** ** The handlers *)

Section Handlers.

Lemma getDocs_run q w :
  getDocs q w =
  (match answer w q with Some docs => Returned docs | None => Thrown end,
   record_call (CallGetDocs q) w).
Proof.
  unfold getDocs, answer. destruct (faults w (CallGetDocs q)); [done|].
  by destruct (run_query (db w) q).
Qed.

Lemma answer_record_call c w q : answer (record_call c w) q = answer w q.
Proof. done. Qed.

Lemma answer_stored w q docs d :
  answer w q = Some docs -> d ∈ docs -> db w !! snap_id d = Some (snap_data d).
Proof.
  unfold answer. destruct (faults w (CallGetDocs q)); [done|].
  intros Hrun Hd. destruct (run_query_inv _ _ _ Hrun) as (ks & Hks & _).
  by apply (run_query_sound _ _ _ _ Hrun Hks).
Qed.

Lemma lookup_annotate d k :
  annotate d !! k =
  match snap_data d !! k with
  | Some v => Some v
  | None => if decide (k = "id") then Some (VStr (snap_id d)) else None
  end.
Proof.
  unfold annotate, spread. rewrite lookup_union.
  destruct (snap_data d !! k) as [v|] eqn:E.
  - by destruct ({[ "id" := VStr (snap_id d) ]} !! k).
  - rewrite (left_id None _). destruct (decide (k = "id")) as [->|Hne].
    + by rewrite lookup_singleton_eq.
    + by rewrite lookup_singleton_ne.
Qed.

Lemma get_products_first_page rq w L :
  limitNum rq = Some L -> 0 < L -> gt_one (pageNum rq) = false ->
  get_products rq w =
  (reply "Failed to fetch products" (answer w (main_query rq L None)),
   record_call (CallGetDocs (main_query rq L None)) w).
Proof.
  intros HL HL0 HN. apply Z.ltb_lt in HL0.
  unfold get_products, try_catch, bind. fold (limitNum rq) (pageNum rq).
  rewrite HL, HN. simpl. rewrite HL0. simpl.
  rewrite getDocs_run. unfold main_query, query, sort_field, sort_order, orderBy.
  simpl. by destruct (answer w _).
Qed.

Lemma get_products_later_page rq w L N :
  limitNum rq = Some L -> 0 < L -> pageNum rq = Some N -> 1 < N ->
  let prev := previous_page_query rq ((N - 1) * L) in
  let w1 := record_call (CallGetDocs prev) w in
  get_products rq w =
  match answer w prev with
  | None => (reply "Failed to fetch products" None, w1)
  | Some previous =>
      let q := main_query rq L (last previous) in
      (reply "Failed to fetch products" (answer w q), record_call (CallGetDocs q) w1)
  end.
Proof.
  intros HL HL0 HN HN1. 
  assert ((0 <? (N - 1) * L) = true) as Hm by (apply Z.ltb_lt; nia).
  apply Z.ltb_lt in HL0, HN1.
  unfold get_products, try_catch, bind. fold (limitNum rq) (pageNum rq).
  rewrite HL, HN. simpl. rewrite HL0, HN1. simpl. rewrite Hm. simpl.
  rewrite getDocs_run. unfold previous_page_query, main_query, query, sort_field, sort_order, orderBy.
  simpl.
  destruct (answer w _) as [previous|]; [|done].
  destruct (last previous) as [c|]; simpl; rewrite getDocs_run, answer_record_call.
  - rewrite <- app_assoc. simpl. by destruct (answer w _).
  - by destruct (answer w _).
Qed.

Lemma get_products_bad_limit rq w :
  (forall L, limitNum rq = Some L -> L <= 0) ->
  get_products rq w = (reply "Failed to fetch products" None, w).
Proof.
  intros H. unfold get_products, try_catch, bind. fold (limitNum rq) (pageNum rq).
  destruct (limitNum rq) as [L|]; simpl; [|done].
  assert ((0 <? L) = false) as -> by (apply Z.ltb_ge; auto).
  done.
Qed.

Lemma get_products_search_run q w :
  q <> "" ->
  get_products_search (Some q) w =
  (reply "Failed to search products" (answer w (search_query q)),
   record_call (CallGetDocs (search_query q)) w).
Proof.
  intros Hq. unfold get_products_search, try_catch, bind.
  destruct q as [|c q]; [done|]. simpl. rewrite getDocs_run.
  unfold search_query. simpl. by destruct (answer w _).
Qed.

Lemma get_products_filter_run rq w :
  get_products_filter rq w =
  (reply "Failed to filter products" (answer w (filter_query rq)),
   record_call (CallGetDocs (filter_query rq)) w).
Proof.
  unfold get_products_filter, try_catch, bind. rewrite getDocs_run.
  unfold filter_query, lower_bound, upper_bound, filter_sort, query, orderBy.
  destruct (truthy (brand rq)); simpl; by destruct (answer w _).
Qed.

Lemma get_product_run productId w :
  get_product productId w =
  (Returned
     (if faults w (CallGetDoc productId)
      then status_send 500 (error_body "Failed to fetch product")
      else match db w !! productId with
           | Some d => send (JObject (annotate (mkSnap productId d)))
           | None => status_send 404 (error_body "Product not found")
           end),
   record_call (CallGetDoc productId) w).
Proof.
  unfold get_product, try_catch, bind, getDoc.
  destruct (faults w (CallGetDoc productId)); [done|].
  by destruct (db w !! productId).
Qed.

Lemma reply_ok msg o r :
  reply msg o = Returned r -> status r = 200 ->
  exists docs, o = Some docs /\ body r = JArray (map annotate docs).
Proof.
  unfold reply. intros [= <-]. destruct o as [docs|]; simpl; [eauto | done].
Qed.

Lemma answer_Forall_stored w q docs :
  answer w q = Some docs -> Forall (stored w) docs.
Proof. intros H. apply Forall_forall. intros d Hd. by eapply answer_stored. Qed.

Lemma gt_one_true p : gt_one p = true -> exists N, p = Some N /\ 1 < N.
Proof. destruct p as [N|]; simpl; [|done]. intros H. exists N. split; [done|lia]. Qed.

Lemma get_products_sent rq w r w' :
  get_products rq w = (Returned r, w') -> status r = 200 ->
  exists docs, body r = JArray (map annotate docs) /\ Forall (stored w) docs.
Proof.
  intros Hrun Hs.
  destruct (limitNum rq) as [L|] eqn:HL.
  2:{ rewrite get_products_bad_limit in Hrun by (intros; congruence).
      injection Hrun as <- _. done. }
  destruct (decide (0 < L)) as [HL0|HL0].
  2:{ rewrite get_products_bad_limit in Hrun by (intros L' HL'; assert (L' = L) by congruence; lia).
      injection Hrun as <- _. done. }
  destruct (gt_one (pageNum rq)) eqn:Hp.
  - apply gt_one_true in Hp as (N & HN & HN1).
    rewrite (get_products_later_page rq w L N HL HL0 HN HN1) in Hrun. simpl in Hrun.
    destruct (answer w (previous_page_query rq _)) as [previous|].
    + apply (f_equal fst) in Hrun. apply reply_ok in Hrun as (docs & Ha & Hb); [|done].
      exists docs. split; [done|]. by eapply answer_Forall_stored.
    + injection Hrun as <- _. done.
  - rewrite (get_products_first_page rq w L HL HL0 Hp) in Hrun.
    apply (f_equal fst) in Hrun. apply reply_ok in Hrun as (docs & Ha & Hb); [|done].
    exists docs. split; [done|]. by eapply answer_Forall_stored.
Qed.

End Handlers.

(** ** Search *)

Section Search.

(** C8: a search request whose [q] is missing or the empty string is
    answered with status 400 and the object [{ error: ... }], and the world
    is left as it was: no call is made to the store. *)
Theorem search_without_term_is_client_error (w : World) :
  get_products_search None w =
    (Returned (mkResponse 400 (JObject {[ "error" := VStr "Search term (q) is required" ]})), w)
  /\ get_products_search (Some "") w =
    (Returned (mkResponse 400 (JObject {[ "error" := VStr "Search term (q) is required" ]})), w).
Proof. split; reflexivity. Qed.

Lemma array_contains_keyword t (d : Data) :
  where_holds OpArrayContains (VStr t) (d !! "searchKeywords") = true <-> has_keyword t d.
Proof.
  unfold has_keyword, where_holds. split.
  - destruct (d !! "searchKeywords") as [[p|l]|]; try done. simpl.
    intros H. exists l. split; [done|].
    apply existsb_exists in H as (x & Hx & Heq).
    apply list_elem_of_In.
    assert (x = PStr t) as <-; [|done].
    destruct x as [|b|n|s]; try done.
    unfold prim_eqb in Heq. rewrite prim_compare_antisym in Heq.
    assert (prim_eqb (PStr s) (PStr t) = true) as Hs.
    { unfold prim_eqb. by destruct (prim_compare (PStr s) (PStr t)). }
    by apply prim_eqb_str in Hs.
  - intros (l & -> & Hin). simpl. apply existsb_exists.
    exists (PStr t). split; [by apply list_elem_of_In | apply prim_eqb_refl_str].
Qed.

Lemma run_search_query db q :
  exists docs, run_query db (search_query q) = Some docs /\
    NoDup (map snap_id docs) /\
    forall d, d ∈ docs <->
      db !! snap_id d = Some (snap_data d) /\ has_keyword (toLowerCase q) (snap_data d).
Proof.
  destruct (run_query db (search_query q)) as [docs|] eqn:Hrun; [|done].
  exists docs. split; [done|].
  assert (order_keys (search_query q) = Some []) as Hks by reflexivity.
  destruct (run_query_sound _ _ _ _ Hrun Hks) as (_ & Hnd & Hin & _).
  split; [done|]. intros d. split.
  - intros Hd. destruct (Hin d Hd) as [Hst Hsel]. split; [done|].
    unfold selected in Hsel. simpl in Hsel.
    apply array_contains_keyword. by destruct (where_holds _ _ _).
  - intros [Hst Hkw]. apply (run_query_complete _ _ _ _ _ Hrun Hks); [reflexivity | exact Hst |].
    unfold selected. simpl. apply array_contains_keyword in Hkw. by rewrite Hkw.
Qed.

(** C6: for a non-empty term [q], on a store that answers, the search
    returns, each once, exactly the stored products whose [searchKeywords]
    array has the lower-cased [q] as one of its elements; a term with the
    same lower-casing gets the same response. *)
Theorem search_matches_exact_token (q : string) (w : World) :
  q <> "" -> healthy w ->
  exists docs,
    (get_products_search (Some q) w).1 = Returned (send (JArray (map annotate docs)))
    /\ NoDup (map snap_id docs)
    /\ (forall d, d ∈ docs <-> stored w d /\ has_keyword (toLowerCase q) (snap_data d))
    /\ (forall q', q' <> "" -> toLowerCase q' = toLowerCase q ->
          get_products_search (Some q') w = get_products_search (Some q) w).
Proof.
  intros Hq Hw.
  destruct (run_search_query (db w) q) as (docs & Hrun & Hnd & Hin).
  exists docs. split; [|split; [done|split]].
  - rewrite get_products_search_run by done. simpl.
    unfold answer. by rewrite Hw, Hrun.
  - exact Hin.
  - intros q' Hq' Hlow. rewrite !get_products_search_run by done.
    unfold search_query. by rewrite Hlow.
Qed.

End Search.

(** ** The sample stores *)

Section Samples.

Lemma shop_healthy : healthy shop.
Proof. intros c. reflexivity. Defined.

Lemma imported_healthy : healthy imported.
Proof. intros c. reflexivity. Defined.

End Samples.

Lemma search_matches_exact_token_witness :
  "RED" <> "" /\ healthy shop /\
  exists docs,
    (get_products_search (Some "RED") shop).1 = Returned (send (JArray (map annotate docs)))
    /\ NoDup (map snap_id docs)
    /\ (forall d, d ∈ docs <-> stored shop d /\ has_keyword (toLowerCase "RED") (snap_data d))
    /\ (forall q', q' <> "" -> toLowerCase q' = toLowerCase "RED" ->
          get_products_search (Some q') shop = get_products_search (Some "RED") shop).
Proof.
  assert ("RED" <> "") as H by discriminate.
  split; [exact H|]. split; [exact shop_healthy|].
  exact (search_matches_exact_token "RED" shop H shop_healthy).
Defined.

(** ** Lookup by identifier, and what a response record holds *)

Section Records.



(** C10: a response record is the stored fields of its document plus an
    [id] key that holds the document identifier only if the stored fields
    have no [id]; a stored [id] is what the response shows.  Every record
    sent with status 200 by the four handlers is such an object, made from
    a stored document. *)
Theorem response_record_is_stored_data_with_id :
  (forall d k,
     annotate d !! k =
     match snap_data d !! k with
     | Some v => Some v
     | None => if decide (k = "id") then Some (VStr (snap_id d)) else None
     end)
  /\ (forall rq w r w', get_products rq w = (Returned r, w') -> status r = 200 ->
        exists docs, body r = JArray (map annotate docs) /\ Forall (stored w) docs)
  /\ (forall q w r w', get_products_search q w = (Returned r, w') -> status r = 200 ->
        exists docs, body r = JArray (map annotate docs) /\ Forall (stored w) docs)
  /\ (forall rq w r w', get_products_filter rq w = (Returned r, w') -> status r = 200 ->
        exists docs, body r = JArray (map annotate docs) /\ Forall (stored w) docs)
  /\ (forall productId w r w', get_product productId w = (Returned r, w') -> status r = 200 ->
        exists d, body r = JObject (annotate d) /\ snap_id d = productId /\ stored w d).
Proof.
  split; [exact lookup_annotate|].
  split; [exact get_products_sent|].
  split; [|split].
  - intros q w r w' Hrun Hs.
    destruct q as [[|c q]|]; try (injection Hrun as <- _; done).
    rewrite get_products_search_run in Hrun by done.
    apply (f_equal fst) in Hrun. apply reply_ok in Hrun as (docs & Ha & Hb); [|done].
    exists docs. split; [done|]. by eapply answer_Forall_stored.
  - intros rq w r w' Hrun Hs. rewrite get_products_filter_run in Hrun.
    apply (f_equal fst) in Hrun. apply reply_ok in Hrun as (docs & Ha & Hb); [|done].
    exists docs. split; [done|]. by eapply answer_Forall_stored.
  - intros productId w r w' Hrun Hs. rewrite get_product_run in Hrun.
    injection Hrun as <- _.
    destruct (faults w (CallGetDoc productId)); [done|].
    destruct (db w !! productId) as [d|] eqn:Hd; [|done].
    by exists (mkSnap productId d).
Qed.

End Records.


Lemma response_record_is_stored_data_with_id_witness :
  exists r w', get_product "p1" imported = (Returned r, w') /\ status r = 200 /\
    exists d, body r = JObject (annotate d) /\ snap_id d = "p1" /\ stored imported d.
Proof.
  eexists _, _. split; [reflexivity|]. split; [reflexivity|].
  eapply (proj2 (proj2 (proj2 (proj2 response_record_is_stored_data_with_id)))); reflexivity.
Defined.

(** ** Listing *)

Section Listing.

Lemma selected_inv q ks d :
  selected q ks d = true ->
  (forall c, In c q -> matches c (snap_data d) = true) /\
  has_fields ks (snap_data d) = true /\ after_cursor ks (last_cursor q) d = true.
Proof.
  unfold selected. rewrite !andb_true_iff, forallb_forall. tauto.
Qed.




Lemma order_keys_previous rq n dir :
  parse_direction (sort_order rq) = Some dir ->
  order_keys (previous_page_query rq n) = Some [(sort_field rq, dir)].
Proof. intros H. unfold order_keys. simpl. by rewrite H. Qed.

Lemma order_keys_main rq n cursor dir :
  parse_direction (sort_order rq) = Some dir ->
  order_keys (main_query rq n cursor) = Some [(sort_field rq, dir)].
Proof.
  intros H. unfold order_keys, main_query, products_base.
  destruct (truthy (category rq)), cursor; simpl; by rewrite H.
Qed.

Lemma last_limit_main rq n cursor : last_limit (main_query rq n cursor) = Some n.
Proof.
  unfold main_query, products_base. by destruct (truthy (category rq)), cursor.
Qed.

Lemma last_cursor_main rq n cursor : last_cursor (main_query rq n cursor) = cursor.
Proof.
  unfold main_query, products_base. by destruct (truthy (category rq)), cursor.
Qed.

Lemma bound_ok_main rq n cursor : forallb bound_ok (main_query rq n cursor) = true.
Proof.
  unfold main_query, products_base. by destruct (truthy (category rq)), cursor.
Qed.


Lemma answer_run w q docs : answer w q = Some docs -> run_query (db w) q = Some docs.
Proof. unfold answer. by destruct (faults w (CallGetDocs q)). Qed.

Lemma healthy_answer w q : healthy w -> answer w q = run_query (db w) q.
Proof. intros H. unfold answer. by rewrite H. Qed.







End Listing.


Section Cursor.


(** C1 at the request for the second page of two shoes: the query made to
    find the cursor is ordered and limited but carries no filter on
    [category], which only the main query has; its last record, the
    cursor, is the hat [b], which no page of shoes holds. *)
Theorem previous_page_query_drops_category :
  calls (get_products (shoes_page "2") shop).2 =
  [ CallGetDocs [OrderBy "price" "asc"; Limit 2];
    CallGetDocs [Where "category" OpEq (VStr "shoes"); OrderBy "price" "asc"; Limit 2;
                 StartAfter (sample "b")] ]
  /\ snap_data (sample "b") !! "category" = Some (VStr "hats").
Proof. split; vm_compute; reflexivity. Qed.

(** C2 at the shoes of [catalogue], two to a page: four products match,
    yet page 1 and page 2 are both [c; d]; the two pages share their
    identifiers, and one after the other they are not in order of price. *)
Theorem pages_of_a_category_overlap :
  length (List.filter (fun d => value_eqb (default (VPrim PNull) (snap_data d !! "category"))
                                          (VStr "shoes"))
                      (snapshots catalogue)) = 4%nat
  /\ (get_products (shoes_page "1") shop).1
     = Returned (send (JArray (map annotate [sample "c"; sample "d"])))
  /\ (get_products (shoes_page "2") shop).1
     = Returned (send (JArray (map annotate [sample "c"; sample "d"])))
  /\ ~ sorted_by "price" Asc
        (map annotate [sample "c"; sample "d"] ++ map annotate [sample "c"; sample "d"]).
Proof.
  split; [vm_compute; reflexivity|]. split; [vm_compute; reflexivity|].
  split; [vm_compute; reflexivity|].
  intros H. unfold sorted_by in H. simpl in H.
  inversion H as [|? ? H1 _]; subst. inversion H1 as [|? ? _ H2]; subst.
  inversion H2 as [|? ? Hgt]; subst. apply Hgt. vm_compute. reflexivity.
Qed.

End Cursor.


(** ** Filtering *)

Section Filtering.

Lemma where_ge_num lo (fv : option Value) :
  where_holds OpGe (VNum lo) fv = true <-> exists p, fv = Some (VNum p) /\ num_le lo p.
Proof.
  unfold where_holds, num_le. split.
  - destruct fv as [[[|b|p|s]|l]|]; try done. simpl.
    intros H. exists p. split; [done|]. rewrite (num_compare_antisym p lo).
    by destruct (num_compare p lo).
  - intros (p & -> & H). simpl. rewrite (num_compare_antisym p lo) in H.
    by destruct (num_compare p lo).
Qed.

Lemma where_le_num hi (fv : option Value) :
  where_holds OpLe (VNum hi) fv = true <-> exists p, fv = Some (VNum p) /\ num_le p hi.
Proof.
  unfold where_holds, num_le. split.
  - destruct fv as [[[|b|p|s]|l]|]; try done. simpl.
    intros H. exists p. split; [done|]. by destruct (num_compare p hi).
  - intros (p & -> & H). simpl. by destruct (num_compare p hi).
Qed.

Lemma where_eq_str s (fv : option Value) :
  where_holds OpEq (VStr s) fv = true <-> fv = Some (VStr s).
Proof.
  unfold where_holds. destruct fv as [v|]; [|done].
  rewrite value_eqb_str. split; congruence.
Qed.

Lemma order_keys_filter rq :
  exists rest, order_keys (filter_query rq) = Some ((filter_sort rq, Asc) :: rest)
    /\ forall k, k ∈ rest -> k.1 = "price".
Proof.
  unfold order_keys, filter_query.
  destruct (truthy (brand rq)); simpl;
    (destruct (decide ("price" ∉ [filter_sort rq])) as [Hn|Hn];
     [ rewrite filter_cons_True by done | rewrite filter_cons_False by done ];
     rewrite filter_nil; simpl; eexists; (split; [reflexivity|]); intros k Hk).
  all: try (by apply elem_of_nil in Hk).
  all: by apply list_elem_of_singleton in Hk as ->.
Qed.




(** The filters of [/products/filter], read on a document. *)
Lemma filter_query_matches rq (d : Data) :
  forallb (fun c => matches c d) (filter_query rq) = true <->
  price_within (lower_bound rq) (upper_bound rq) d /\ brand_is rq d.
Proof.
  assert (where_holds OpGe (VNum (lower_bound rq)) (d !! "price")
          && where_holds OpLe (VNum (upper_bound rq)) (d !! "price") = true
          <-> price_within (lower_bound rq) (upper_bound rq) d) as Hprice.
  { rewrite andb_true_iff, where_ge_num, where_le_num. unfold price_within. split.
    - intros [(p & Hp & Hlo) (p' & Hp' & Hhi)]. exists p.
      assert (p' = p) as -> by (unfold VNum in *; congruence). done.
    - intros (p & Hp & Hlo & Hhi). split; by exists p. }
  unfold filter_query, brand_is.
  destruct (brand rq) as [[|c b]|] eqn:Hb; simpl.
  - rewrite andb_true_r, Hprice. split; [intros H; split; [done|] | tauto].
    by intros b [= <-].
  - rewrite andb_true_r, andb_assoc, andb_true_iff, Hprice, where_eq_str.
    split; intros [H1 H2]; (split; [done|]).
    + by intros b' [= <-] _.
    + by apply (H2 (String c b)).
  - rewrite andb_true_r, Hprice. split; [intros H; split; [done|] | tauto].
    by intros b [=].
Qed.


End Filtering.

Example filter_10_50 :
  (get_products_filter (mkFilterQuery (Some "10") (Some "50") None None) shop).1
  = Returned (send (JArray (map annotate [sample "b"; sample "c"]))).
Proof. vm_compute. reflexivity. Qed.


(** ** Recomputing the search keywords *)

Section Keywords.

Lemma try_catch_ret_unit (m : M unit) w : (try_catch m (ret tt) w).1 = Returned tt.
Proof. unfold try_catch. by destruct (m w) as [[[]|] ?]. Qed.

Lemma update_keywords_returns s w : (update_keywords s w).1 = Returned tt.
Proof. apply try_catch_ret_unit. Qed.

Lemma with_keywords_idem d : with_keywords (with_keywords d) = with_keywords d.
Proof.
  unfold with_keywords.
  destruct (d !! "title") as [[[|b|n|title]|l]|] eqn:Ht; rewrite ?Ht; try done.
  rewrite lookup_insert_ne, Ht by done. apply insert_insert_eq.
Qed.

Lemma with_keywords_title d : with_keywords d !! "title" = d !! "title".
Proof.
  unfold with_keywords.
  destruct (d !! "title") as [[[|b|n|title]|l]|] eqn:Ht; rewrite ?Ht; try done.
  by rewrite lookup_insert_ne.
Qed.

(** What one turn of the callback leaves in the store. *)
Lemma update_keywords_db s w :
  healthy w ->
  db (update_keywords s w).2 =
  match db w !! snap_id s, snap_data s !! "title" with
  | Some cur, Some (VPrim (PStr title)) =>
      <[ snap_id s := <[ "searchKeywords" := VArr (map PStr (keywords_of title)) ]> cur ]> (db w)
  | _, _ => db w
  end
  /\ faults (update_keywords s w).2 = faults w.
Proof.
  intros Hw. unfold update_keywords, try_catch.
  destruct (snap_data s !! "title") as [[[|b|n|title]|l]|];
    try (by destruct (db w !! snap_id s)).
  unfold updateDoc. rewrite Hw.
  destruct (db w !! snap_id s) as [cur|]; [|done]. simpl.
  by rewrite <- insert_union_singleton_l.
Qed.

Lemma update_keywords_step db0 s w :
  healthy w -> db0 !! snap_id s = Some (snap_data s) -> refreshing db0 w ->
  let w' := (update_keywords s w).2 in
  healthy w' /\ refreshing db0 w' /\
  db w' !! snap_id s = Some (with_keywords (snap_data s)) /\
  (forall i, i <> snap_id s -> db w' !! i = db w !! i).
Proof.
  intros Hw Hs Hinv.
  assert (exists cur, db w !! snap_id s = Some cur /\ cur !! "title" = snap_data s !! "title"
            /\ with_keywords cur = with_keywords (snap_data s)) as (cur & Hcur & Htitle & Hidem).
  { destruct (Hinv (snap_id s)) as [H | H]; rewrite Hs in H; simpl in H.
    - by exists (snap_data s).
    - exists (with_keywords (snap_data s)).
      split; [done|]. split; [apply with_keywords_title | apply with_keywords_idem]. }
  destruct (update_keywords_db s w Hw) as [Hdb Hf]. simpl.
  assert (db (update_keywords s w).2 = <[ snap_id s := with_keywords (snap_data s) ]> (db w))
    as Hdb'.
  { rewrite Hdb, Hcur, <- Hidem. unfold with_keywords. rewrite Htitle.
    destruct (snap_data s !! "title") as [[[|b|n|title]|l]|]; try done.
    all: by rewrite insert_id. }
  rewrite Hdb'. split; [|split; [|split]].
  - intros c. rewrite Hf. apply Hw.
  - intros i. rewrite Hdb'. destruct (decide (i = snap_id s)) as [-> | Hne].
    + right. by rewrite lookup_insert_eq, Hs.
    + rewrite lookup_insert_ne by done. apply Hinv.
  - by rewrite lookup_insert_eq.
  - intros i Hi. by rewrite lookup_insert_ne.
Qed.

Lemma for_each_update_keywords (db0 : gmap string Data) l :
  forall w,
  healthy w -> refreshing db0 w ->
  (forall s, s ∈ l -> db0 !! snap_id s = Some (snap_data s)) ->
  let w' := (for_each update_keywords l w).2 in
  healthy w' /\ refreshing db0 w' /\
  (forall i d, db0 !! i = Some d ->
     mkSnap i d ∈ l \/ db w !! i = Some (with_keywords d) ->
     db w' !! i = Some (with_keywords d)).
Proof.
  induction l as [|s l IH]; intros w Hw Hinv Hl; simpl.
  - split; [done|]. split; [done|]. intros i d Hd [Hin | Hdone]; [|done].
    by apply elem_of_nil in Hin.
  - unfold bind.
    assert (db0 !! snap_id s = Some (snap_data s)) as Hs by (apply Hl; left).
    destruct (update_keywords_step db0 s w Hw Hs Hinv) as (Hw1 & Hinv1 & Hs1 & Hother).
    pose proof (update_keywords_returns s w) as Hret.
    destruct (update_keywords s w) as [o w1]. simpl in *. subst o.
    destruct (IH w1 Hw1 Hinv1) as (H1 & H2 & H3); [by intros; apply Hl; right|].
    split; [done|]. split; [done|]. intros i d Hd Hor. apply H3; [done|].
    destruct Hor as [Hin | Hdone].
    + apply elem_of_cons in Hin as [<- | Hin]; [by right | by left].
    + right. destruct (decide (i = snap_id s)) as [-> | Hne].
      * rewrite Hs1. congruence.
      * by rewrite Hother.
Qed.

Lemma refreshing_start w : refreshing (db w) w.
Proof. intros i. by left. Qed.

Lemma all_products_answered w docs d :
  answer w Products = Some docs -> stored w d -> d ∈ docs.
Proof.
  intros Hans Hd. apply answer_run in Hans.
  by apply (run_query_complete (db w) Products [] docs d Hans).
Qed.

(** C9 as stated fails: for the title ["Red  Shoe"], the array written
    back is ["red"; ""; "shoe"], and its elements are not the white-space
    separated tokens of the lower-cased title, which are ["red"; "shoe"]. *)
Lemma keywords_differ_from_whitespace_tokens :
  exists l,
    (db (updateProductsWithKeywords typo_shop).2 !! "p1") ≫= (fun d => d !! "searchKeywords")
      = Some (VArr (map PStr l))
    /\ (list_to_set l : gset string)
       <> list_to_set (whitespace_tokens (toLowerCase "Red  Shoe")).
Proof.
  exists ["red"; ""; "shoe"]. split; [vm_compute; reflexivity|].
  intros H. apply (f_equal (fun s : gset string => bool_decide ("" ∈ s))) in H.
  vm_compute in H. discriminate.
Qed.

(** C9, amended: on a store that answers, the maintenance pass leaves
    every product whose title is a string with a [searchKeywords] array
    that lists, in order, the pieces of the lower-cased title between its
    space characters (an empty piece for each space that follows another
    or stands at an end), its other fields unchanged. *)
Theorem keywords_are_space_split_title (w : World) (productId title : string) (d : Data) :
  healthy w -> db w !! productId = Some d -> d !! "title" = Some (VStr title) ->
  db (updateProductsWithKeywords w).2 !! productId
  = Some (<[ "searchKeywords" := VArr (map PStr (split " " (toLowerCase title))) ]> d).
Proof.
  intros Hw Hd Ht. unfold updateProductsWithKeywords, bind. rewrite getDocs_run.
  destruct (answer w Products) as [docs|] eqn:Hans.
  2:{ rewrite healthy_answer in Hans by done. done. }
  assert (healthy (record_call (CallGetDocs Products) w)) as Hw1 by exact Hw.
  destruct (for_each_update_keywords (db w) docs _ Hw1 (refreshing_start w)) as (_ & _ & H).
  { intros s Hs. by eapply answer_stored. }
  rewrite (H productId d Hd).
  - unfold with_keywords. by rewrite Ht.
  - left. by apply (all_products_answered w docs (mkSnap productId d)).
Qed.

End Keywords.

Lemma keywords_are_space_split_title_witness :
  healthy typo_shop /\
  db typo_shop !! "p1" = Some ({[ "title" := VStr "Red  Shoe" ]} : Data) /\
  ({[ "title" := VStr "Red  Shoe" ]} : Data) !! "title" = Some (VStr "Red  Shoe") /\
  db (updateProductsWithKeywords typo_shop).2 !! "p1"
  = Some (<[ "searchKeywords" := VArr (map PStr (split " " (toLowerCase "Red  Shoe"))) ]>
            ({[ "title" := VStr "Red  Shoe" ]} : Data)).
Proof.
  assert (healthy typo_shop) as Hw by (intros c; reflexivity).
  split; [exact Hw|]. split; [reflexivity|]. split; [reflexivity|].
  exact (keywords_are_space_split_title typo_shop "p1" "Red  Shoe" _ Hw eq_refl eq_refl).
Defined.

(** ** Pages of an unfiltered listing *)

Section Pages.

Lemma Permutation_list_filter {A} (p : A -> bool) l l' :
  l ≡ₚ l' -> List.filter p l ≡ₚ List.filter p l'.
Proof.
  induction 1 as [|x l l' _ IH|x y l|l l' l'' _ IH1 _ IH2]; simpl.
  - done.
  - destruct (p x); by rewrite IH.
  - destruct (p x), (p y); try done. apply perm_swap.
  - by rewrite IH1.
Qed.

Lemma list_filter_filter {A} (p q : A -> bool) l :
  List.filter p (List.filter q l) = List.filter (fun x => q x && p x) l.
Proof.
  induction l as [|x l IH]; simpl; [done|].
  destruct (q x); simpl; [|done]. destruct (p x); by rewrite IH.
Qed.

Lemma list_filter_all {A} (p : A -> bool) l :
  (forall x, x ∈ l -> p x = true) -> List.filter p l = l.
Proof.
  induction l as [|x l IH]; intros H; simpl; [done|].
  rewrite (H x) by left. f_equal. apply IH. intros y Hy. apply H. by right.
Qed.

Lemma list_filter_none {A} (p : A -> bool) l :
  (forall x, x ∈ l -> p x = false) -> List.filter p l = [].
Proof.
  induction l as [|x l IH]; intros H; simpl; [done|].
  rewrite (H x) by left. apply IH. intros y Hy. apply H. by right.
Qed.

Variable ks : list (string * Direction).

(** A sorted list whose identifiers differ is strictly sorted. *)
Lemma strictly_sorted l :
  StronglySorted (snap_le ks) l -> NoDup (map snap_id l) ->
  StronglySorted (fun a b => snap_compare ks a b = Lt) l.
Proof.
  induction 1 as [|a l Hl IH Ha]; simpl; intros Hnd; constructor.
  - apply IH. by apply NoDup_cons in Hnd as [_ ?].
  - apply NoDup_cons in Hnd as [Hnotin _].
    apply Forall_forall. intros b Hb.
    pose proof (proj1 (Forall_forall _ _) Ha b Hb) as Hle. unfold snap_le in Hle.
    destruct (snap_compare ks a b) eqn:E; [|done|done].
    exfalso. apply Hnotin. rewrite (snap_compare_Eq_id ks a b E).
    apply list_elem_of_In, in_map. by apply list_elem_of_In.
Qed.

(** In a strictly sorted list, what lies after an element is what follows
    it. *)
Lemma filter_after_cursor pre c post :
  StronglySorted (fun a b => snap_compare ks a b = Lt) (pre ++ c :: post) ->
  List.filter (after_cursor ks (Some c)) (pre ++ c :: post) = post.
Proof.
  intros Hs. rewrite List.filter_app. simpl.
  rewrite list_filter_none, (cmp_refl (cmp:=snap_compare ks) c), list_filter_all; [done| |].
  - intros d Hd. simpl.
    apply StronglySorted_app_1_r in Hs. inversion Hs as [|? ? _ Hall]; subst.
    by rewrite (proj1 (Forall_forall _ _) Hall d Hd).
  - intros d Hd. simpl.
    assert (snap_compare ks d c = Lt) as E.
    { apply (StronglySorted_app_1_elem_of (fun a b => snap_compare ks a b = Lt)
               pre (c :: post) d c Hs); [done | by left]. }
    rewrite (cmp_antisym (cmp:=snap_compare ks) d c), E. done.
Qed.

Lemma sorted_unique_stored (db : gmap string Data) l1 l2 :
  Sorted (snap_le ks) l1 -> Sorted (snap_le ks) l2 -> l1 ≡ₚ l2 ->
  (forall d, d ∈ l1 -> db !! snap_id d = Some (snap_data d)) ->
  l1 = l2.
Proof.
  intros H1 H2 Hp Hst.
  apply (Sorted_unique_strong (snap_le ks)); try done.
  intros a b Ha Hb Hab Hba. unfold snap_le in *.
  assert (snap_id a = snap_id b) as Hid.
  { apply (snap_compare_Eq_id ks). rewrite (cmp_antisym (cmp:=snap_compare ks) a b) in Hba.
    by destruct (snap_compare ks a b). }
  rewrite <- Hp in Hb. apply Hst in Ha, Hb. rewrite Hid in Ha.
  destruct a, b; simpl in *; congruence.
Qed.

End Pages.

Section Blocks.

Variable rq : ProductsQuery.
Variable dir : Direction.
Hypothesis Hdir : parse_direction (sort_order rq) = Some dir.
Hypothesis Hcat : truthy (category rq) = false.

Let ks : list (string * Direction) := [(sort_field rq, dir)].

Lemma order_keys_listing : order_keys (listing_query rq) = Some ks.
Proof. unfold order_keys, listing_query. simpl. by rewrite Hdir. Qed.

Lemma run_listing db : run_query db (listing_query rq) = Some (ordered_listing rq dir db).
Proof.
  unfold run_query. rewrite order_keys_listing. simpl.
  unfold ordered_listing. do 2 f_equal. apply filter_ext. intros d.
  unfold selected. simpl. by rewrite andb_true_r.
Qed.

Lemma run_previous db n :
  0 < n ->
  run_query db (previous_page_query rq n) = Some (take (Z.to_nat n) (ordered_listing rq dir db)).
Proof.
  intros Hn. unfold run_query. rewrite (order_keys_previous rq n dir Hdir).
  unfold limit_ok. simpl. apply Z.ltb_lt in Hn. rewrite Hn. simpl.
  unfold ordered_listing. do 3 f_equal. apply filter_ext. intros d.
  unfold selected. simpl. by rewrite andb_true_r.
Qed.

Lemma main_query_plain n cursor :
  main_query rq n cursor =
  ([OrderBy (sort_field rq) (sort_order rq); Limit n]
   ++ match cursor with Some c => [StartAfter c] | None => [] end)%list.
Proof. unfold main_query, products_base. by rewrite Hcat. Qed.

Lemma run_main_first db n :
  0 < n ->
  run_query db (main_query rq n None) = Some (take (Z.to_nat n) (ordered_listing rq dir db)).
Proof.
  intros Hn. unfold run_query. rewrite (order_keys_main rq n None dir Hdir).
  rewrite main_query_plain. unfold limit_ok. simpl. apply Z.ltb_lt in Hn. rewrite Hn. simpl.
  unfold ordered_listing. do 3 f_equal. apply filter_ext. intros d.
  unfold selected. simpl. by rewrite andb_true_r.
Qed.

Lemma run_main_after db n c :
  0 < n -> has_fields ks (snap_data c) = true ->
  run_query db (main_query rq n (Some c)) =
  Some (take (Z.to_nat n)
          (merge_sort (snap_le ks)
             (List.filter (fun d => has_fields ks (snap_data d) && after_cursor ks (Some c) d)
                          (snapshots db)))).
Proof.
  intros Hn Hc. unfold run_query. rewrite (order_keys_main rq n (Some c) dir Hdir).
  rewrite bound_ok_main. unfold limit_ok, cursor_ok.
  rewrite last_limit_main, last_cursor_main.
  apply Z.ltb_lt in Hn. rewrite Hn. fold ks. rewrite Hc. cbn [andb cut].
  do 3 f_equal. apply filter_ext. intros d.
  unfold selected. rewrite last_cursor_main, main_query_plain. simpl.
  done.
Qed.

Lemma ordered_listing_sorted db :
  StronglySorted (fun a b => snap_compare ks a b = Lt) (ordered_listing rq dir db)
  /\ forall d, d ∈ ordered_listing rq dir db ->
       db !! snap_id d = Some (snap_data d) /\ has_fields ks (snap_data d) = true.
Proof.
  destruct (run_query_sound db _ ks _ (run_listing db) order_keys_listing)
    as (Hs & Hnd & Hin & _).
  split.
  - apply strictly_sorted; [|done]. by apply Sorted_StronglySorted; [apply _|].
  - intros d Hd. destruct (Hin d Hd) as [Hst Hsel]. split; [done|].
    by apply selected_inv in Hsel as (_ & ? & _).
Qed.

(** After the cursor taken at the end of the first [m] documents of the
    listing come the documents from the [m]-th on. *)
Lemma listing_after_cursor db m c :
  last (take m (ordered_listing rq dir db)) = Some c ->
  merge_sort (snap_le ks)
    (List.filter (fun d => has_fields ks (snap_data d) && after_cursor ks (Some c) d)
                 (snapshots db))
  = drop m (ordered_listing rq dir db).
Proof.
  intros Hlast. apply last_Some in Hlast as [pre Hpre].
  destruct (ordered_listing_sorted db) as [Hstrict Hin].
  assert (ordered_listing rq dir db = pre ++ c :: drop m (ordered_listing rq dir db))%list as Hall.
  { rewrite <- (take_drop m (ordered_listing rq dir db)) at 1. rewrite Hpre.
    by rewrite <- app_assoc. }
  assert (List.filter (after_cursor ks (Some c)) (ordered_listing rq dir db)
          = drop m (ordered_listing rq dir db)) as Hpost.
  { rewrite Hall at 1. apply filter_after_cursor. by rewrite <- Hall. }
  rewrite <- Hpost at 1.
  apply (sorted_unique_stored ks db).
  - apply Sorted_merge_sort, _.
  - rewrite Hpost. apply StronglySorted_Sorted.
    apply (StronglySorted_app_1_r _ (take m (ordered_listing rq dir db))).
    rewrite take_drop.
    destruct (run_query_sound db _ ks _ (run_listing db) order_keys_listing) as (Hs & _).
    by apply Sorted_StronglySorted; [apply _|].
  - rewrite merge_sort_Permutation, <- list_filter_filter.
    apply Permutation_list_filter. unfold ordered_listing.
    by rewrite merge_sort_Permutation.
  - intros d Hd. rewrite merge_sort_Permutation in Hd.
    apply list_elem_of_In, filter_In in Hd as [Hd _]. by apply elem_of_snapshots.
Qed.

End Blocks.

Section UnfilteredPages.

Lemma last_None_nil {A} (l : list A) : last l = None -> l = [].
Proof.
  destruct l as [|x l] using rev_ind; [done|]. by rewrite last_snoc.
Qed.

(** Without a category filter, page [N] of a listing is its [N]-th block of
    [L] documents: the two queries of [/products] then range over the same
    documents, so the cursor is the last document of the pages before. *)
Lemma unfiltered_page
    (rq : ProductsQuery) (w : World) (L N : Z) (dir : Direction) :
  truthy (category rq) = false ->
  limitNum rq = Some L -> 0 < L -> pageNum rq = Some N -> 0 < N ->
  parse_direction (sort_order rq) = Some dir -> healthy w ->
  (get_products rq w).1 =
  Returned (send (JArray (map annotate
    (take (Z.to_nat L) (drop (Z.to_nat ((N - 1) * L)) (ordered_listing rq dir (db w))))))).
Proof.
  intros Hcat HL HL0 HN HN0 Hdir Hw.
  destruct (decide (1 < N)) as [HN1|HN1].
  - rewrite (get_products_later_page rq w L N HL HL0 HN HN1). simpl.
    rewrite !healthy_answer by done.
    rewrite (run_previous rq dir Hdir) by nia.
    set (m := Z.to_nat ((N - 1) * L)).
    destruct (last (take m (ordered_listing rq dir (db w)))) as [c|] eqn:Hlast; simpl.
    + rewrite healthy_answer by done.
      rewrite (run_main_after rq dir Hdir Hcat) by
        (try done;
         apply (proj2 (ordered_listing_sorted rq dir Hdir (db w)) c);
         eapply subseteq_take, last_Some_elem_of, Hlast).
      by rewrite (listing_after_cursor rq dir Hdir (db w) m c Hlast).
    + rewrite healthy_answer by done.
      rewrite (run_main_first rq dir Hdir Hcat) by done. simpl.
      apply last_None_nil in Hlast.
      assert (ordered_listing rq dir (db w) = []) as ->; [|by rewrite drop_nil].
      destruct (ordered_listing rq dir (db w)) as [|d l]; [done|].
      assert (m <> 0%nat) by (unfold m; nia). by destruct m.
  - assert (N = 1) as -> by lia.
    rewrite (get_products_first_page rq w L HL HL0) by (rewrite HN; done).
    simpl. rewrite healthy_answer by done.
    by rewrite (run_main_first rq dir Hdir Hcat).
Qed.

End UnfilteredPages.

Section FirstPages.

(** The query that finds the cursor filters on nothing: every constraint
    it carries holds of every document. *)
Lemma previous_page_query_unfiltered rq n (d : Data) :
  forallb (fun c => matches c d) (previous_page_query rq n) = true.
Proof. reflexivity. Qed.


End FirstPages.

Example second_page_of_everything :
  (get_products (any_page "2") shop).1
  = Returned (send (JArray (map annotate [sample "c"; sample "d"]))).
Proof.
  rewrite (unfiltered_page (any_page "2") shop 2 2 Asc);
    try reflexivity; try lia; try exact shop_healthy.
Qed.

(** ** Defaults, edges and failures of the handlers *)

Section Defaults.

(** X1: a parameter left out of a [/products] request acts as its default
    written out: [sortBy=price], [order=asc], [limit=10], [page=1]. *)
Theorem get_products_defaults (rq : ProductsQuery) (w : World) :
  get_products (explicit_defaults rq) w = get_products rq w.
Proof. destruct rq as [c [s|] [o|] [l|] [p|]]; reflexivity. Qed.

(** X2: a parameter left out of a [/products/filter] request acts as its
    default written out: [minPrice=0], [maxPrice=Infinity], [sort=price]. *)
Theorem get_products_filter_defaults (rq : FilterQuery) (w : World) :
  get_products_filter (explicit_filter_defaults rq) w = get_products_filter rq w.
Proof. destruct rq as [[lo|] [hi|] b [s|]]; reflexivity. Qed.

(** X3: an empty [category] (in [/products]) or [brand] (in
    [/products/filter]) is the same as none: no filter is put on the query. *)
Theorem empty_filter_value_is_absent :
  (forall rq w, get_products (with_category (Some "") rq) w
                = get_products (with_category None rq) w)
  /\ (forall rq w, get_products_filter (with_brand (Some "") rq) w
                   = get_products_filter (with_brand None rq) w).
Proof. split; reflexivity. Qed.

End Defaults.

Section Responses.

(** The body [{ error: msg }] and the status that goes with it. *)
Lemma reply_status msg o r :
  reply msg o = Returned r ->
  (status r = 200 /\ exists docs, o = Some docs /\ body r = JArray (map annotate docs))
  \/ (status r = 500 /\ o = None /\ body r = error_body msg).
Proof.
  unfold reply. intros [= <-]. destruct o as [docs|]; simpl; [left | right]; eauto.
Qed.

Lemma limitNum_with_page p rq : limitNum (with_page p rq) = limitNum rq.
Proof. done. Qed.

Lemma main_query_with_page p rq L c : main_query (with_page p rq) L c = main_query rq L c.
Proof. done. Qed.

(** X4: a page that is no number, or a number that is at most 1, gets what
    a request without [page] gets: the first page, by one query. *)
Theorem page_not_above_one_is_first_page (rq : ProductsQuery) (w : World) :
  (forall N, pageNum rq = Some N -> N <= 1) ->
  get_products rq w = get_products (with_page None rq) w.
Proof.
  intros Hp.
  assert (gt_one (pageNum rq) = false) as Hg.
  { destruct (pageNum rq) as [N|]; simpl; [|done]. apply Z.ltb_ge. by apply Hp. }
  destruct (limitNum rq) as [L|] eqn:HL.
  2:{ rewrite !get_products_bad_limit; [done | | ]; intros L;
        rewrite ?limitNum_with_page, HL; done. }
  destruct (decide (0 < L)) as [HL0|HL0].
  - rewrite (get_products_first_page rq w L HL HL0 Hg).
    by rewrite (get_products_first_page (with_page None rq) w L).
  - rewrite !get_products_bad_limit; [done | | ]; intros L';
      rewrite ?limitNum_with_page, HL; intros [= <-]; lia.
Qed.

(** X5: a limit that is zero or negative is answered with status 500 and
    the object [{ error: ... }], and no call is made to the store. *)
Theorem limit_not_positive_is_refused (rq : ProductsQuery) (w : World) (L : Z) :
  limitNum rq = Some L -> L <= 0 ->
  get_products rq w =
  (Returned (mkResponse 500 (JObject {[ "error" := VStr "Failed to fetch products" ]})), w).
Proof.
  intros HL HL0. rewrite get_products_bad_limit; [done|].
  intros L' HL'. assert (L' = L) as -> by congruence. done.
Qed.


Lemma new_calls_one c w : new_calls w (record_call c w) [c].
Proof. done. Qed.

Lemma new_calls_two c1 c2 w : new_calls w (record_call c2 (record_call c1 w)) [c1; c2].
Proof. unfold new_calls. simpl. by rewrite <- app_assoc. Qed.

Lemma new_calls_none w : new_calls w w [].
Proof. unfold new_calls. by rewrite app_nil_r. Qed.

Lemma get_products_responds (rq : ProductsQuery) (w : World) :
  exists r w' new,
    get_products rq w = (Returned r, w')
    /\ (status r = 200 \/ (status r = 500 /\ body r = error_body "Failed to fetch products"))
    /\ new_calls w w' new
    /\ (length new <= 2)%nat
    /\ Forall (fun c => exists q, c = CallGetDocs q) new.
Proof.
  assert (forall o r, reply "Failed to fetch products" o = Returned r ->
            status r = 200 \/ (status r = 500 /\ body r = error_body "Failed to fetch products"))
    as Hst.
  { intros o r Hr. destruct (reply_status _ _ _ Hr) as [[? _] | (? & _ & ?)]; auto. }
  destruct (limitNum rq) as [L|] eqn:HL.
  2:{ eexists _, _, []. rewrite get_products_bad_limit by (intros; congruence).
      split; [reflexivity|]. split; [by right|]. split; [apply new_calls_none|].
      split; [simpl; lia | constructor]. }
  destruct (decide (0 < L)) as [HL0|HL0].
  2:{ eexists _, _, [].
      rewrite get_products_bad_limit
        by (intros L' HL'; assert (L' = L) by congruence; lia).
      split; [reflexivity|]. split; [by right|]. split; [apply new_calls_none|].
      split; [simpl; lia | constructor]. }
  destruct (gt_one (pageNum rq)) eqn:Hp.
  - apply gt_one_true in Hp as (N & HN & HN1).
    rewrite (get_products_later_page rq w L N HL HL0 HN HN1). simpl.
    destruct (answer w (previous_page_query rq _)) as [previous|].
    + eexists _, _, [_; _]. split; [reflexivity|]. split; [by eapply Hst|].
      split; [apply new_calls_two|]. split; [simpl; lia|].
      repeat constructor; eauto.
    + eexists _, _, [_]. split; [reflexivity|]. split; [by right|].
      split; [apply new_calls_one|]. split; [simpl; lia|].
      repeat constructor; eauto.
  - rewrite (get_products_first_page rq w L HL HL0 Hp).
    eexists _, _, [_]. split; [reflexivity|]. split; [by eapply Hst|].
    split; [apply new_calls_one|]. split; [simpl; lia|].
    repeat constructor; eauto.
Qed.



(** X9: [/products/search] always answers: 400 without a call when the
    term is missing or empty, else 200 or 500 after at most one call; the
    collection is as it was. *)
Theorem get_products_search_always_answers (q : option string) (w : World) :
  exists r w' new,
    get_products_search q w = (Returned r, w')
    /\ ((status r = 200 /\ truthy q = true)
        \/ (status r = 400 /\ truthy q = false /\ new = [])
        \/ (status r = 500 /\ truthy q = true
            /\ body r = error_body "Failed to search products"))
    /\ new_calls w w' new
    /\ (length new <= 1)%nat.
Proof.
  destruct q as [[|c q]|].
  1,3: (eexists _, _, []; split; [reflexivity|]; split; [by right; left|];
        split; [apply new_calls_none | simpl; lia]).
  rewrite get_products_search_run by done.
  eexists _, _, [_]. split; [reflexivity|]. split; [|split; [apply new_calls_one | simpl; lia]].
  destruct (answer w _); [left | right; right]; done.
Qed.


End Responses.

Section FilterEdges.

(** X15: two brands that differ only in the case of their letters give the
    same run of [/products/filter]. *)
Theorem filter_brand_ignores_case (rq : FilterQuery) (b1 b2 : string) (w : World) :
  b1 <> "" -> b2 <> "" -> toLowerCase b1 = toLowerCase b2 ->
  get_products_filter (with_brand (Some b1) rq) w
  = get_products_filter (with_brand (Some b2) rq) w.
Proof.
  intros H1 H2 Hlow. rewrite !get_products_filter_run.
  assert (filter_query (with_brand (Some b1) rq) = filter_query (with_brand (Some b2) rq))
    as ->; [|done].
  unfold filter_query, with_brand, lower_bound, upper_bound, filter_sort. simpl.
  destruct b1; [done|]. destruct b2; [done|]. cbn [truthy default]. by rewrite Hlow.
Qed.

(** X16: when [minPrice] is above [maxPrice], a 200 response of
    [/products/filter] is the empty list. *)
Theorem filter_crossed_bounds_is_empty (rq : FilterQuery) (w : World) (r : Response) (w' : World) :
  num_compare (lower_bound rq) (upper_bound rq) = Gt ->
  get_products_filter rq w = (Returned r, w') -> status r = 200 ->
  body r = JArray [].
Proof.
  intros Hgt Hrun Hs. rewrite get_products_filter_run in Hrun.
  apply (f_equal fst) in Hrun. apply reply_ok in Hrun as (docs & Hans & ->); [|done].
  destruct docs as [|d docs]; [done|]. exfalso.
  apply answer_run in Hans.
  destruct (order_keys_filter rq) as (rest & Hks & _).
  destruct (run_query_sound _ _ _ _ Hans Hks) as (_ & _ & Hsel & _).
  destruct (Hsel d) as [_ Hd]; [by left|].
  apply selected_inv in Hd as (Hm & _ & _).
  assert (forallb (fun c => matches c (snap_data d)) (filter_query rq) = true) as Hall
    by (by apply forallb_forall).
  apply filter_query_matches in Hall as [(p & _ & Hlo & Hhi) _].
  by apply (cmp_le_trans (cmp:=num_compare) _ p _ Hlo Hhi).
Qed.

End FilterEdges.

Section PagesEnd.


End PagesEnd.

Section Refresh.

Lemma for_each_returns l w : (for_each update_keywords l w).1 = Returned tt.
Proof.
  revert w. induction l as [|s l IH]; intros w; simpl; [done|].
  unfold bind. pose proof (update_keywords_returns s w) as Hr.
  destruct (update_keywords s w) as [o w1]. simpl in Hr. subst o. apply IH.
Qed.

(** One turn of the callback on any store: the document is left as it is
    or gets its keywords, the others are not touched. *)
Lemma update_keywords_any db0 s w :
  db0 !! snap_id s = Some (snap_data s) -> refreshing db0 w ->
  refreshing db0 (update_keywords s w).2 /\ faults (update_keywords s w).2 = faults w.
Proof.
  intros Hs Hinv. unfold update_keywords, try_catch.
  destruct (snap_data s !! "title") as [[[|b|n|title]|l]|] eqn:Ht; try done.
  unfold updateDoc. destruct (faults w _); [done|].
  destruct (db w !! snap_id s) as [cur|] eqn:Hcur; [|done]. simpl.
  split; [|done]. intros i. simpl. destruct (decide (i = snap_id s)) as [-> | Hne].
  - right. rewrite lookup_insert_eq, Hs. simpl. f_equal.
    rewrite <- insert_union_singleton_l.
    destruct (Hinv (snap_id s)) as [H | H]; rewrite Hcur, Hs in H; simpl in H;
      injection H as ->; unfold with_keywords; rewrite Ht; [done|].
    apply insert_insert_eq.
  - rewrite lookup_insert_ne by done. apply Hinv.
Qed.

Lemma for_each_update_keywords_any db0 l :
  forall w,
  refreshing db0 w ->
  (forall s, s ∈ l -> db0 !! snap_id s = Some (snap_data s)) ->
  refreshing db0 (for_each update_keywords l w).2
  /\ faults (for_each update_keywords l w).2 = faults w.
Proof.
  induction l as [|s l IH]; intros w Hinv Hl; simpl; [done|].
  unfold bind.
  destruct (update_keywords_any db0 s w) as [Hinv1 Hf1]; [apply Hl; by left | done |].
  pose proof (update_keywords_returns s w) as Hret.
  destruct (update_keywords s w) as [o w1]. simpl in *. subst o.
  destruct (IH w1 Hinv1) as [H1 H2]; [by intros; apply Hl; right|].
  split; [done | congruence].
Qed.

(** What the pass leaves, whatever the store fails on. *)
Lemma refresh_any w :
  refreshing (db w) (updateProductsWithKeywords w).2
  /\ faults (updateProductsWithKeywords w).2 = faults w
  /\ (updateProductsWithKeywords w).1
     = match answer w Products with Some _ => Returned tt | None => Thrown end.
Proof.
  unfold updateProductsWithKeywords, bind. rewrite getDocs_run.
  destruct (answer w Products) as [docs|] eqn:Hans; simpl.
  - destruct (for_each_update_keywords_any (db w) docs (record_call (CallGetDocs Products) w))
      as [H1 H2].
    { exact (refreshing_start w). }
    { intros s Hs. by eapply answer_stored. }
    split; [done|]. split; [done|].
    pose proof (for_each_returns docs (record_call (CallGetDocs Products) w)) as Hr.
    by destruct (for_each _ _ _).
  - split; [exact (refreshing_start w) | done].
Qed.

(** What the pass leaves on a store that fails on nothing. *)
Lemma refresh_healthy w :
  healthy w ->
  db (updateProductsWithKeywords w).2 = with_keywords <$> db w
  /\ healthy (updateProductsWithKeywords w).2.
Proof.
  intros Hw. destruct (refresh_any w) as (Hinv & Hf & _).
  split; [|by intros c; rewrite Hf].
  apply map_eq. intros i. rewrite lookup_fmap.
  destruct (db w !! i) as [d|] eqn:Hd; simpl.
  - revert Hinv Hf. unfold updateProductsWithKeywords, bind. rewrite getDocs_run.
    destruct (answer w Products) as [docs|] eqn:Hans.
    2:{ rewrite healthy_answer in Hans by done. done. }
    intros _ _.
    destruct (for_each_update_keywords (db w) docs (record_call (CallGetDocs Products) w))
      as (_ & _ & H); [exact Hw | exact (refreshing_start w) | |].
    { intros s Hs. by eapply answer_stored. }
    apply (H i d Hd). left. by apply (all_products_answered w docs (mkSnap i d)).
  - destruct (Hinv i) as [H | H]; rewrite Hd in H; exact H.
Qed.

(** X18: on a store that fails on nothing the maintenance pass returns
    normally and leaves the collection with the keywords of its title
    written into every product whose title is a string, the other products
    as they were. *)
Theorem refresh_writes_keywords_everywhere (w : World) :
  healthy w ->
  (updateProductsWithKeywords w).1 = Returned tt
  /\ db (updateProductsWithKeywords w).2 = with_keywords <$> db w.
Proof.
  intros Hw. destruct (refresh_any w) as (_ & _ & Hout).
  destruct (refresh_healthy w Hw) as [Hdb _]. split; [|done].
  rewrite Hout, healthy_answer by done. done.
Qed.

(** X19: on a store that fails on nothing, running the maintenance pass a
    second time changes nothing in the collection. *)
Theorem refresh_twice_is_refresh_once (w : World) :
  healthy w ->
  db (updateProductsWithKeywords (updateProductsWithKeywords w).2).2
  = db (updateProductsWithKeywords w).2.
Proof.
  intros Hw. destruct (refresh_healthy w Hw) as [Hdb Hw1].
  destruct (refresh_healthy _ Hw1) as [Hdb2 _]. rewrite Hdb2, Hdb.
  rewrite <- map_fmap_compose. apply map_fmap_ext. intros i d _. apply with_keywords_idem.
Qed.

Lemma with_keywords_other d k :
  k <> "searchKeywords" -> with_keywords d !! k = d !! k.
Proof.
  intros Hk. unfold with_keywords.
  destruct (d !! "title") as [[[|b|n|title]|l]|]; try done.
  by rewrite lookup_insert_ne.
Qed.

(** X20: whatever the store fails on, after the maintenance pass every
    product is as it was or has had its keywords written; no product is
    added or removed, and no field but [searchKeywords] changes. *)
Theorem refresh_touches_only_keywords (w : World) (i : string) :
  let w' := (updateProductsWithKeywords w).2 in
  (db w' !! i = db w !! i \/ db w' !! i = with_keywords <$> db w !! i)
  /\ (is_Some (db w' !! i) <-> is_Some (db w !! i))
  /\ (forall k, k <> "searchKeywords" ->
        (db w' !! i) ≫= (fun d => d !! k) = (db w !! i) ≫= (fun d => d !! k)).
Proof.
  destruct (refresh_any w) as (Hinv & _ & _). simpl. specialize (Hinv i).
  split; [done|]. split.
  - destruct Hinv as [-> | ->]; [done|]. by rewrite fmap_is_Some.
  - intros k Hk. destruct Hinv as [-> | ->]; [done|].
    destruct (db w !! i) as [d|]; simpl; [|done]. by apply with_keywords_other.
Qed.


(** X23: after the maintenance pass on a store that fails on nothing,
    searching for a word of a product's title, in any letter case, returns
    that product (a word being a piece of the lower-cased title between
    spaces). *)
Theorem search_finds_refreshed_title_word
    (w : World) (i title q : string) (d : Data) :
  healthy w -> db w !! i = Some d -> d !! "title" = Some (VStr title) ->
  q <> "" -> toLowerCase q ∈ keywords_of title ->
  exists docs,
    (get_products_search (Some q) (updateProductsWithKeywords w).2).1
      = Returned (send (JArray (map annotate docs)))
    /\ mkSnap i (with_keywords d) ∈ docs.
Proof.
  intros Hw Hd Ht Hq Hin.
  destruct (refresh_healthy w Hw) as [Hdb Hw1].
  set (w1 := (updateProductsWithKeywords w).2) in *.
  destruct (run_search_query (db w1) q) as (docs & Hrun & _ & Hdocs).
  exists docs. split.
  - rewrite get_products_search_run by done. simpl.
    by rewrite healthy_answer, Hrun.
  - apply Hdocs. simpl. split.
    + by rewrite Hdb, lookup_fmap, Hd.
    + unfold has_keyword, with_keywords. rewrite Ht. unfold VStr.
      eexists. split; [apply lookup_insert_eq|].
      apply list_elem_of_In, in_map. by apply list_elem_of_In.
Qed.

End Refresh.

Section KeywordStrings.

Lemma lower_ascii_idem c : lower_ascii (lower_ascii c) = lower_ascii c.
Proof. destruct c as [[] [] [] [] [] [] [] []]; reflexivity. Qed.

Lemma toLowerCase_idem s : toLowerCase (toLowerCase s) = toLowerCase s.
Proof. induction s as [|c s IH]; simpl; [done|]. by rewrite lower_ascii_idem, IH. Qed.

Lemma split_nonempty sep s : split sep s <> [].
Proof.
  destruct s as [|c s]; simpl; [done|].
  destruct (Ascii.eqb c sep); [done|]. by destruct (split sep s).
Qed.

Lemma concat_split sep s : String.concat (String sep EmptyString) (split sep s) = s.
Proof.
  induction s as [|c s IH]; simpl; [done|].
  pose proof (split_nonempty sep s) as Hne.
  destruct (Ascii.eqb c sep) eqn:E.
  - apply Ascii.eqb_eq in E as ->.
    destruct (split sep s) as [|w ws]; [done|]. simpl in *. by rewrite IH.
  - destruct (split sep s) as [|w ws]; [done|]. simpl in *.
    destruct ws; simpl in *; by rewrite <- IH.
Qed.

Lemma split_pieces sep s :
  Forall (fun k => occurs sep k = false) (split sep s).
Proof.
  induction s as [|c s IH]; simpl; [by repeat constructor|].
  destruct (Ascii.eqb c sep) eqn:E; [by constructor|].
  destruct (split sep s) as [|w ws]; simpl.
  - repeat constructor. simpl. by rewrite E.
  - apply Forall_cons in IH as [Hw Hws]. constructor; [|done]. simpl. by rewrite E, Hw.
Qed.

Lemma split_lower sep s :
  toLowerCase s = s -> Forall (fun k => toLowerCase k = k) (split sep s).
Proof.
  induction s as [|c s IH]; simpl; [by repeat constructor|].
  intros [= Hc Hs]. specialize (IH Hs).
  destruct (Ascii.eqb c sep); [by constructor|].
  destruct (split sep s) as [|w ws]; simpl.
  - repeat constructor. simpl. by rewrite Hc.
  - apply Forall_cons in IH as [Hw Hws]. constructor; [|done]. simpl. by rewrite Hc, Hw.
Qed.

(** X24: the keywords of a title joined by single spaces give back the
    lower-cased title; there is at least one keyword, and no keyword holds
    a space or an upper-case ASCII letter. *)
Theorem keywords_rebuild_lowercase_title (title : string) :
  String.concat " " (keywords_of title) = toLowerCase title
  /\ keywords_of title <> []
  /\ Forall (fun k => occurs " " k = false /\ toLowerCase k = k) (keywords_of title).
Proof.
  unfold keywords_of. split; [apply concat_split|]. split; [apply split_nonempty|].
  apply Forall_and. split; [apply split_pieces|].
  apply split_lower, toLowerCase_idem.
Qed.

(** X25: every product in a 200 response of [/products/search] has a
    keyword that is its own lower-casing: a product is never found through
    a keyword that holds an upper-case letter. *)
Theorem search_only_matches_lowercase_keywords
    (q : option string) (w : World) (r : Response) (w' : World) :
  get_products_search q w = (Returned r, w') -> status r = 200 ->
  exists docs, body r = JArray (map annotate docs)
    /\ Forall (fun d => exists k, has_keyword k (snap_data d) /\ toLowerCase k = k) docs.
Proof.
  intros Hrun Hs.
  destruct q as [[|c q]|]; try (injection Hrun as <- _; done).
  rewrite get_products_search_run in Hrun by done.
  apply (f_equal fst) in Hrun. apply reply_ok in Hrun as (docs & Hans & Hb); [|done].
  exists docs. split; [done|]. apply Forall_forall. intros d Hd.
  apply answer_run in Hans.
  assert (order_keys (search_query (String c q)) = Some []) as Hks by reflexivity.
  destruct (run_query_sound _ _ _ _ Hans Hks) as (_ & _ & Hsel & _).
  destruct (Hsel d Hd) as [_ Hm]. apply selected_inv in Hm as (Hm & _ & _).
  specialize (Hm _ (or_introl eq_refl)). simpl in Hm.
  exists (toLowerCase (String c q)). split.
  - by apply array_contains_keyword.
  - apply toLowerCase_idem.
Qed.

End KeywordStrings.

Section FirstPage.


End FirstPage.

Section Agreement.

Lemma lookup_after_listing w w' docs :
  db w' = db w -> Forall (stored w) docs ->
  forall d, d ∈ docs -> faults w' (CallGetDoc (snap_id d)) = false ->
    (get_product (snap_id d) w').1 = Returned (send (JObject (annotate d))).
Proof.
  intros Hdb Hst d Hd Hf. rewrite get_product_run, Hf, Hdb. simpl.
  rewrite (proj1 (Forall_forall _ _) Hst d Hd). by destruct d.
Qed.

(** X17: after a 200 response of [/products], [/products/search] or
    [/products/filter], looking up the identifier of a listed document
    returns the record the list shows for it, provided the lookup itself
    does not fail. *)
Theorem lookup_agrees_with_listing :
  (forall rq w r w', get_products rq w = (Returned r, w') -> status r = 200 ->
     exists docs, body r = JArray (map annotate docs) /\
       forall d, d ∈ docs -> faults w' (CallGetDoc (snap_id d)) = false ->
         (get_product (snap_id d) w').1 = Returned (send (JObject (annotate d))))
  /\ (forall q w r w', get_products_search q w = (Returned r, w') -> status r = 200 ->
     exists docs, body r = JArray (map annotate docs) /\
       forall d, d ∈ docs -> faults w' (CallGetDoc (snap_id d)) = false ->
         (get_product (snap_id d) w').1 = Returned (send (JObject (annotate d))))
  /\ (forall rq w r w', get_products_filter rq w = (Returned r, w') -> status r = 200 ->
     exists docs, body r = JArray (map annotate docs) /\
       forall d, d ∈ docs -> faults w' (CallGetDoc (snap_id d)) = false ->
         (get_product (snap_id d) w').1 = Returned (send (JObject (annotate d)))).
Proof.
  split; [|split].
  - intros rq w r w' Hrun Hs.
    destruct (get_products_sent rq w r w' Hrun Hs) as (docs & Hb & Hst).
    exists docs. split; [done|]. apply (lookup_after_listing w); [|done].
    destruct (get_products_responds rq w) as (r0 & w0 & new & Hr & _ & Hn & _).
    rewrite Hrun in Hr. injection Hr as _ <-. apply Hn.
  - intros q w r w' Hrun Hs.
    destruct q as [[|c q]|]; try (injection Hrun as <- _; done).
    rewrite get_products_search_run in Hrun by done.
    pose proof (f_equal snd Hrun) as Hw'. simpl in Hw'. subst w'.
    apply (f_equal fst) in Hrun. apply reply_ok in Hrun as (docs & Ha & Hb); [|done].
    exists docs. split; [done|]. apply (lookup_after_listing w); [done|].
    by eapply answer_Forall_stored.
  - intros rq w r w' Hrun Hs. rewrite get_products_filter_run in Hrun.
    pose proof (f_equal snd Hrun) as Hw'. simpl in Hw'. subst w'.
    apply (f_equal fst) in Hrun. apply reply_ok in Hrun as (docs & Ha & Hb); [|done].
    exists docs. split; [done|]. apply (lookup_after_listing w); [done|].
    by eapply answer_Forall_stored.
Qed.

End Agreement.


Lemma page_not_above_one_is_first_page_witness :
  (forall N, pageNum (any_page "0") = Some N -> N <= 1)
  /\ get_products (any_page "0") shop = get_products (with_page None (any_page "0")) shop.
Proof.
  assert (forall N, pageNum (any_page "0") = Some N -> N <= 1) as H
    by (intros N [= <-]; lia).
  split; [exact H|]. exact (page_not_above_one_is_first_page (any_page "0") shop H).
Defined.

Lemma limit_not_positive_is_refused_witness :
  limitNum limit_zero = Some 0 /\ 0 <= 0 /\
  get_products limit_zero shop =
  (Returned (mkResponse 500 (JObject {[ "error" := VStr "Failed to fetch products" ]})), shop).
Proof.
  assert (0 <= 0) as H by lia.
  split; [reflexivity|]. split; [exact H|].
  exact (limit_not_positive_is_refused limit_zero shop 0 eq_refl H).
Defined.





Lemma filter_brand_ignores_case_witness :
  "ACME" <> "" /\ "acme" <> "" /\ toLowerCase "ACME" = toLowerCase "acme" /\
  get_products_filter (with_brand (Some "ACME") acme_10_50) shop
  = get_products_filter (with_brand (Some "acme") acme_10_50) shop.
Proof.
  assert ("ACME" <> "") as H1 by discriminate. assert ("acme" <> "") as H2 by discriminate.
  split; [exact H1|]. split; [exact H2|]. split; [reflexivity|].
  exact (filter_brand_ignores_case acme_10_50 "ACME" "acme" shop H1 H2 eq_refl).
Defined.

Lemma filter_crossed_bounds_is_empty_witness :
  num_compare (lower_bound crossed_50_10) (upper_bound crossed_50_10) = Gt /\
  get_products_filter crossed_50_10 shop
  = (Returned (send (JArray [])),
     record_call (CallGetDocs (filter_query crossed_50_10)) shop) /\
  status (send (JArray [])) = 200 /\
  body (send (JArray [])) = JArray [].
Proof.
  assert (get_products_filter crossed_50_10 shop
          = (Returned (send (JArray [])),
             record_call (CallGetDocs (filter_query crossed_50_10)) shop)) as Hrun
    by (vm_compute; reflexivity).
  split; [reflexivity|]. split; [exact Hrun|]. split; [reflexivity|].
  exact (filter_crossed_bounds_is_empty crossed_50_10 shop _ _ eq_refl Hrun eq_refl).
Defined.

Lemma typo_shop_healthy : healthy typo_shop.
Proof. intros c. reflexivity. Defined.

Lemma refresh_writes_keywords_everywhere_witness :
  healthy typo_shop /\
  (updateProductsWithKeywords typo_shop).1 = Returned tt /\
  db (updateProductsWithKeywords typo_shop).2 = with_keywords <$> db typo_shop.
Proof.
  split; [exact typo_shop_healthy|].
  exact (refresh_writes_keywords_everywhere typo_shop typo_shop_healthy).
Defined.

Lemma refresh_twice_is_refresh_once_witness :
  healthy shop /\
  db (updateProductsWithKeywords (updateProductsWithKeywords shop).2).2
  = db (updateProductsWithKeywords shop).2.
Proof.
  split; [exact shop_healthy|].
  exact (refresh_twice_is_refresh_once shop shop_healthy).
Defined.

Lemma search_finds_refreshed_title_word_witness :
  healthy typo_shop /\
  db typo_shop !! "p1" = Some ({[ "title" := VStr "Red  Shoe" ]} : Data) /\
  ({[ "title" := VStr "Red  Shoe" ]} : Data) !! "title" = Some (VStr "Red  Shoe") /\
  "SHOE" <> "" /\ toLowerCase "SHOE" ∈ keywords_of "Red  Shoe" /\
  exists docs,
    (get_products_search (Some "SHOE") (updateProductsWithKeywords typo_shop).2).1
      = Returned (send (JArray (map annotate docs)))
    /\ mkSnap "p1" (with_keywords {[ "title" := VStr "Red  Shoe" ]}) ∈ docs.
Proof.
  assert ("SHOE" <> "") as Hq by discriminate.
  assert (toLowerCase "SHOE" ∈ keywords_of "Red  Shoe") as Hin
    by (vm_compute; do 2 apply list_elem_of_further; apply list_elem_of_here).
  split; [exact typo_shop_healthy|]. split; [reflexivity|]. split; [reflexivity|].
  split; [exact Hq|]. split; [exact Hin|].
  exact (search_finds_refreshed_title_word typo_shop "p1" "Red  Shoe" "SHOE" _
           typo_shop_healthy eq_refl eq_refl Hq Hin).
Defined.

Lemma search_only_matches_lowercase_keywords_witness :
  get_products_search (Some "RED") shop
  = (Returned (send (JArray (map annotate [sample "a"; sample "c"; sample "f"]))),
     record_call (CallGetDocs (search_query "RED")) shop) /\
  status (send (JArray (map annotate [sample "a"; sample "c"; sample "f"]))) = 200 /\
  exists docs,
    body (send (JArray (map annotate [sample "a"; sample "c"; sample "f"])))
      = JArray (map annotate docs)
    /\ Forall (fun d => exists k, has_keyword k (snap_data d) /\ toLowerCase k = k) docs.
Proof.
  assert (get_products_search (Some "RED") shop
          = (Returned (send (JArray (map annotate [sample "a"; sample "c"; sample "f"]))),
             record_call (CallGetDocs (search_query "RED")) shop)) as Hrun
    by (vm_compute; reflexivity).
  split; [exact Hrun|]. split; [reflexivity|].
  exact (search_only_matches_lowercase_keywords (Some "RED") shop _ _ Hrun eq_refl).
Defined.


Section RefreshCalls.

Lemma update_keywords_calls s w :
  calls (update_keywords s w).2 = (calls w ++ keyword_update s)%list.
Proof.
  unfold update_keywords, keyword_update, try_catch.
  destruct (snap_data s !! "title") as [[[|b|n|title]|l]|];
    try (simpl; by rewrite app_nil_r).
  unfold updateDoc. destruct (faults w _); [done|].
  by destruct (db w !! snap_id s).
Qed.

Lemma for_each_update_keywords_calls l :
  forall w,
  calls (for_each update_keywords l w).2 = (calls w ++ flat_map keyword_update l)%list.
Proof.
  induction l as [|s l IH]; intros w; simpl; [by rewrite app_nil_r|].
  unfold bind. pose proof (update_keywords_returns s w) as Hret.
  pose proof (update_keywords_calls s w) as Hc.
  destruct (update_keywords s w) as [o w1]. simpl in *. subst o.
  by rewrite IH, Hc, <- app_assoc.
Qed.

(** X22: when its listing is answered, the maintenance pass makes that call
    and then, in the order of the listing, one [updateDoc] for each product
    whose title is a string, and no other call. *)
Theorem refresh_writes_once_per_titled_product (w : World) (docs : list DocumentSnapshot) :
  answer w Products = Some docs ->
  calls (updateProductsWithKeywords w).2
  = (calls w ++ CallGetDocs Products :: flat_map keyword_update docs)%list.
Proof.
  intros Hans. unfold updateProductsWithKeywords, bind. rewrite getDocs_run, Hans.
  rewrite for_each_update_keywords_calls. simpl. by rewrite <- app_assoc.
Qed.

End RefreshCalls.

Lemma refresh_writes_once_per_titled_product_witness :
  answer typo_shop Products = Some [mkSnap "p1" {[ "title" := VStr "Red  Shoe" ]}] /\
  calls (updateProductsWithKeywords typo_shop).2
  = (calls typo_shop ++ CallGetDocs Products
       :: flat_map keyword_update [mkSnap "p1" {[ "title" := VStr "Red  Shoe" ]}])%list.
Proof.
  assert (answer typo_shop Products = Some [mkSnap "p1" {[ "title" := VStr "Red  Shoe" ]}])
    as H by (vm_compute; reflexivity).
  split; [exact H|].
  exact (refresh_writes_once_per_titled_product typo_shop _ H).
Defined.
